(** * EBPNet guideline scraper: a shallow embedding of [EBPNET/main.py]

    The development follows the script: Python values as the JSON decoder
    produces them, the exceptions the script catches, the content archiver
    ([save_guideline_pdf]), the collection fetcher
    ([fetch_all_guidelines]), the eligibility filter, the record extractor,
    the CSV store, the worker unit and the orchestrator
    ([process_guidelines], [main]); then the eligibility filter of the
    earlier script [__main__ebpnet_api.py]. The properties follow the
    model, component by component; further properties, with the capture
    and the processing loop of the earlier script, come last. *)

From stdpp Require Import base option list strings gmap.
From Stdlib Require Import ZArith QArith DecimalString.
From Stdlib.Strings Require Import Ascii Byte.

Set Warnings "-register-all,-clear-no-such-hyp".

Local Open Scope Z_scope.
Local Open Scope string_scope.
Local Open Scope list_scope.

(** ** Python values *)

(** A Python float: finite, infinite or not-a-number ([json.loads] accepts
    [Infinity] and [NaN]). *)
Inductive pyfloat :=
  | FFin (q : Q)
  | FInf (negative : bool)
  | FNaN.

(** The objects [response.json()] can return. A dict is kept as an
    association list in insertion order (a decoded object has each key
    once); lookup takes the first binding. *)
Inductive value :=
  | VNone
  | VBool (b : bool)
  | VInt (n : Z)
  | VFloat (f : pyfloat)
  | VStr (s : string)
  | VList (l : list value)
  | VDict (d : list (string * value)).

Abbreviation dict := (list (string * value)).

(** The exceptions that occur in the script, by class. *)
Inductive exn :=
  | AttributeError
  | TypeError
  | OSError
  | ValueError
  | HTTPError
  | WebDriverException
  | TimeoutException
  | NoSuchElementException
  | PlainException.

(** [IOError] is an alias of [OSError]; [except IOError] catches it and
    its subclasses, among them the [HTTPError] of [requests]. *)
Definition is_IOError (e : exn) : bool :=
  match e with OSError | HTTPError => true | _ => false end.

(** A computation that returns or raises. *)
Inductive res (A : Type) :=
  | Ok (a : A)
  | Raise (e : exn).
Arguments Ok {A} a.
Arguments Raise {A} e.

#[global] Instance res_ret : MRet res := λ A a, Ok a.
#[global] Instance res_bind : MBind res := λ A B k m,
  match m with
  | Ok a => k a
  | Raise e => Raise e
  end.

(** ** Built-in operations *)

(** [bool(v)] *)
Definition float_truthy (f : pyfloat) : bool :=
  match f with
  | FFin q => negb (Qeq_bool q 0%Q)
  | _ => true
  end.

Definition truthy (v : value) : bool :=
  match v with
  | VNone => false
  | VBool b => b
  | VInt n => negb (Z.eqb n 0)
  | VFloat f => float_truthy f
  | VStr s => negb (String.eqb s "")
  | VList l => match l with [] => false | _ => true end
  | VDict d => match d with [] => false | _ => true end
  end.

(** Lookup in a dict: the first binding of the key. *)
Fixpoint dict_get (d : dict) (k : string) : option value :=
  match d with
  | [] => None
  | (k', v) :: d' => if String.eqb k' k then Some v else dict_get d' k
  end.

(** [obj.get(k, default)]: only a dict has the attribute [get]. *)
Definition py_get (obj : value) (k : string) (default : value) : res value :=
  match obj with
  | VDict d => Ok (from_option id default (dict_get d k))
  | _ => Raise AttributeError
  end.

(** [d.get(k, default)] on an object known to be a dict. *)
Definition get (d : dict) (k : string) (default : value) : value :=
  from_option id default (dict_get d k).

(** [d.get(k)]: [None] when the key is missing. *)
Definition get_none (d : dict) (k : string) : value := get d k VNone.

(** [v is False] *)
Definition is_False (v : value) : bool :=
  match v with VBool false => true | _ => false end.

(** [isinstance(v, str)], [isinstance(v, dict)] *)
Definition isinstance_str (v : value) : bool :=
  match v with VStr _ => true | _ => false end.
Definition isinstance_dict (v : value) : bool :=
  match v with VDict _ => true | _ => false end.

(** [sep.join(items)]: every item must be a [str]. *)
Fixpoint join_strs (sep : string) (items : list string) : string :=
  match items with
  | [] => ""
  | [s] => s
  | s :: rest => s +:+ sep +:+ join_strs sep rest
  end.

Fixpoint all_strs (items : list value) : res (list string) :=
  match items with
  | [] => Ok []
  | VStr s :: rest => l ← all_strs rest; Ok (s :: l)
  | _ :: _ => Raise TypeError
  end.

Definition py_join (sep : string) (items : list value) : res string :=
  l ← all_strs items; Ok (join_strs sep l).

(** [x in s] for a set of strings: an unhashable operand raises, a
    hashable one that is not a [str] equals no member. *)
Definition py_in (x : value) (s : gset string) : res bool :=
  match x with
  | VStr u => Ok (bool_decide (u ∈ s))
  | VList _ | VDict _ => Raise TypeError
  | _ => Ok false
  end.

(** The pure library functions the script calls: [repr()] of a float, a
    list or a dict (never empty), [slugify], [base64.b64decode], and
    [os.getcwd()] at import time. *)
Class Runtime := {
  repr : value → string;
  slugify : string → string;
  b64decode : string → option (list byte);
  getcwd : string;
  repr_nonempty : ∀ v, repr v ≠ ""
}.

(** [str(n)] for an int. *)
Definition str_int (n : Z) : string := NilZero.string_of_int (Z.to_int n).

(** [str(v)], also what an f-string puts for [{v}]. *)
Definition py_str `{Runtime} (v : value) : string :=
  match v with
  | VNone => "None"
  | VBool true => "True"
  | VBool false => "False"
  | VInt n => str_int n
  | VStr s => s
  | VFloat _ | VList _ | VDict _ => repr v
  end.

(** ** Effects: a trace of external calls, and exceptions *)

(** The calls the content archiver makes on its rendering session, the
    network and the file system, in the order they happen. A [EOpen]
    creates or truncates the file; a [EWrite] is a completed write. *)
Inductive event :=
  | EChrome
  | EDriverGet (url : string)
  | EWait
  | EFindContent
  | EPrintHelper
  | EPrintPage
  | EDownloadHelper
  | EFindLink
  | ERequestsGet (url : string)
  | EOpen (path : string)
  | EWrite (path : string) (data : list byte)
  | EQuit.

(** A computation with a trace that returns or raises. *)
Record io (A : Type) := IO { trace : list event; outcome : res A }.
Arguments IO {A} trace outcome.
Arguments trace {A} _.
Arguments outcome {A} _.

#[global] Instance io_ret : MRet io := λ A a, IO [] (Ok a).
#[global] Instance io_bind : MBind io := λ A B k m,
  match outcome m with
  | Ok a => IO (trace m ++ trace (k a)) (outcome (k a))
  | Raise e => IO (trace m) (Raise e)
  end.

(** An external call: its event, then its outcome. *)
Definition call {A} (e : event) (r : res A) : io A := IO [e] r.

Definition throw {A} (e : exn) : io A := IO [] (Raise e).

(** [try: m  except: h] (every exception class of the model is caught by
    [except Exception] and by the bare [except]). *)
Definition try_except {A} (m : io A) (h : exn → io A) : io A :=
  match outcome m with
  | Ok _ => m
  | Raise e => IO (trace m ++ trace (h e)) (outcome (h e))
  end.

(** [try: m  finally: f]: [f] runs on every exit of [m]; an exception of
    [f] replaces the result. *)
Definition try_finally {A} (m : io A) (f : io unit) : io A :=
  IO (trace m ++ trace f)
     (match outcome f with
      | Ok _ => outcome m
      | Raise e => Raise e
      end).

(** ** Content archiver *)

(** How a [with open(path, "wb") as f: f.write(...)] goes. *)
Inductive fs_outcome := FsOk | FsOpenFails | FsWriteFails.

(** What one call of [save_guideline_pdf] meets: the random suffix, the
    rendering session, the detail page (as it is when the wait ends), the
    network and the disk.
    [pdf_link] is the element of [PDF_LINK_SELECTOR] with its [href]
    attribute ([None]: no such element; [Some None]: no attribute).
    [requests_get] is [None] when the request raises, else the status
    check ([true]: [raise_for_status] passes) and the body. *)
Record capture_env := {
  uuid8 : string;
  chrome_starts : bool;
  page_loads : bool;
  content_marker : bool;
  pdf_link : option (option string);
  print_page : option string;
  print_fs : fs_outcome;
  requests_get : string → option (bool * list byte);
  download_fs : fs_outcome
}.

(** [os.path.join(a, b)] on a POSIX system. *)
Definition starts_with_slash (s : string) : bool :=
  match s with
  | String c _ => Ascii.eqb c "/"%char
  | EmptyString => false
  end.

Fixpoint ends_with_slash (s : string) : bool :=
  match s with
  | EmptyString => false
  | String c EmptyString => Ascii.eqb c "/"%char
  | String _ s' => ends_with_slash s'
  end.

Definition path_join (a b : string) : string :=
  if starts_with_slash b then b
  else if String.eqb a "" || ends_with_slash a then a +:+ b
  else a +:+ "/" +:+ b.

Section archiver.
Context `{Runtime}.

Definition SITE_URL : string := "https://ebpnet.be".
Definition OUTPUT_DIR : string := getcwd.
Definition DOWNLOADS_DIR : string := path_join OUTPUT_DIR "pdfs".

(** [open(path, "wb")] *)
Definition open_wb (o : fs_outcome) (path : string) : io unit :=
  match o with
  | FsOpenFails => throw OSError
  | _ => call (EOpen path) (Ok ())
  end.

(** [f.write(data)] and the close at the end of the [with] block *)
Definition f_write (o : fs_outcome) (path : string) (data : list byte) : io unit :=
  match o with
  | FsOk => call (EWrite path data) (Ok ())
  | _ => throw OSError
  end.

Definition _print_page_to_pdf (env : capture_env) (output_path : string) : io unit :=
  _ ← call EPrintHelper (Ok ());
  pdf ← call EPrintPage
         (match print_page env with
          | Some pdf => Ok pdf
          | None => Raise WebDriverException
          end);
  _ ← open_wb (print_fs env) output_path;
  data ← match b64decode pdf with
         | Some data => mret data
         | None => throw ValueError
         end;
  f_write (print_fs env) output_path data.

Definition _download_linked_pdf (env : capture_env) (output_path : string) : io unit :=
  _ ← call EDownloadHelper (Ok ());
  try_except
    (pdf_url ← call EFindLink
                 (match pdf_link env with
                  | Some href => Ok href
                  | None => Raise NoSuchElementException
                  end);
     match pdf_url with
     | None | Some "" => throw PlainException
     | Some pdf_url =>
         '(status_ok, content) ← call (ERequestsGet pdf_url)
                                   (match requests_get env pdf_url with
                                    | Some r => Ok r
                                    | None => Raise OSError
                                    end);
         _ ← (if status_ok : bool then mret () else throw HTTPError);
         _ ← open_wb (download_fs env) output_path;
         f_write (download_fs env) output_path content
     end)
    (λ e_download, throw e_download).

(** The output path of one call. *)
Definition pdf_path_of (env : capture_env) (name : value) : string :=
  let filename := slugify (py_str name +:+ "-" +:+ uuid8 env) in
  path_join DOWNLOADS_DIR (filename +:+ ".pdf").

(** The wait of 15 seconds for [WAIT_FOR_ELEMENT_XPATH]: either marker. *)
Definition wait_until_present (env : capture_env) : io unit :=
  call EWait
    (if content_marker env || bool_decide (is_Some (pdf_link env))
     then Ok () else Raise TimeoutException).

(** [save_guideline_pdf]; [name] is the title the unit passes, of any
    type, formatted into the file name. [driver.quit()] swallows its own
    errors and is taken to return. *)
Definition save_guideline_pdf (env : capture_env) (url : string) (name : value) : io string :=
  let pdf_path := pdf_path_of env name in
  try_finally
    (try_except
       (_ ← call EChrome
              (if chrome_starts env then Ok () else Raise WebDriverException);
        _ ← call (EDriverGet url)
              (if page_loads env then Ok () else Raise WebDriverException);
        _ ← wait_until_present env;
        _ ← try_except
              (_ ← call EFindContent
                     (if content_marker env then Ok ()
                      else Raise NoSuchElementException);
               _print_page_to_pdf env pdf_path)
              (λ _, _download_linked_pdf env pdf_path);
        mret pdf_path)
       (λ e, mret ""))
    (if chrome_starts env then call EQuit (Ok ()) else mret ()).

End archiver.

(** ** Collection fetcher *)

(** What the upstream answers to the request for one page. *)
Inductive page_response :=
  | RequestFails
  | StatusFails
  | JsonFails
  | JsonBody (data : value).

(** [v > n] for an int [n]: defined on numbers and bools only. *)
Definition py_gt_int (v : value) (n : Z) : res bool :=
  match v with
  | VBool b => Ok (Z.ltb n (Z.b2z b))
  | VInt m => Ok (Z.ltb n m)
  | VFloat (FFin q) => Ok (negb (Qle_bool q (inject_Z n)))
  | VFloat (FInf negative) => Ok (negb negative)
  | VFloat FNaN => Ok false
  | _ => Raise TypeError
  end.

(** [n >= v] for an int [n]. *)
Definition py_int_ge (n : Z) (v : value) : res bool :=
  match v with
  | VBool b => Ok (Z.leb (Z.b2z b) n)
  | VInt m => Ok (Z.leb m n)
  | VFloat (FFin q) => Ok (Qle_bool q (inject_Z n))
  | VFloat (FInf negative) => Ok negative
  | VFloat FNaN => Ok false
  | _ => Raise TypeError
  end.

(** The items [list.extend(v)] appends: the elements of a list, the
    characters of a string, the keys of a dict. *)
Fixpoint chars (s : string) : list value :=
  match s with
  | EmptyString => []
  | String c s' => VStr (String c EmptyString) :: chars s'
  end.

Definition py_iter (v : value) : res (list value) :=
  match v with
  | VList l => Ok l
  | VStr s => Ok (chars s)
  | VDict d => Ok ((λ kv, VStr kv.1) <$> d)
  | _ => Raise TypeError
  end.

Inductive loop_exit := Continue | Break.

(** One iteration of the [while True] loop at [offset]: the list
    [all_guidelines] after it (it is extended in place, so it keeps what
    was appended before an exception), and how the [try] block ended. *)
Definition fetch_page (offset : Z) (response : page_response)
    (all_guidelines : list value) : list value * res loop_exit :=
  match response with
  | RequestFails => (all_guidelines, Raise OSError)
  | StatusFails => (all_guidelines, Raise HTTPError)
  | JsonFails => (all_guidelines, Raise ValueError)
  | JsonBody data =>
      match py_get data "guidelines" (VList []) with
      | Raise e => (all_guidelines, Raise e)
      | Ok guidelines =>
          if negb (truthy guidelines) then (all_guidelines, Ok Break)
          else
            match py_iter guidelines with
            | Raise e => (all_guidelines, Raise e)
            | Ok items =>
                (all_guidelines ++ items,
                 pagination ← py_get data "pagination" (VDict []);
                 total_pages ← py_get pagination "totalPages" (VInt 0);
                 positive ← py_gt_int total_pages 0;
                 if positive : bool then
                   last ← py_int_ge offset total_pages;
                   Ok (if last : bool then Break else Continue)
                 else Ok Continue)
            end
      end
  end.

(** The loop, with [fuel] iterations at most: [None] when they run out
    (the source has no bound of its own). An exception ends the loop like
    a [break]. *)
Fixpoint fetch_loop (fuel : nat) (upstream : Z → page_response) (offset : Z)
    (all_guidelines : list value) : option (list value) :=
  match fuel with
  | O => None
  | S fuel' =>
      match fetch_page offset (upstream offset) all_guidelines with
      | (all_guidelines', Ok Continue) =>
          fetch_loop fuel' upstream (offset + 1) all_guidelines'
      | (all_guidelines', Ok Break) => Some all_guidelines'
      | (all_guidelines', Raise _) => Some all_guidelines'
      end
  end.

Definition fetch_all_guidelines (fuel : nat) (upstream : Z → page_response)
    : option (list value) :=
  fetch_loop fuel upstream 1 [].

(** ** Eligibility filter *)

(** The test of the loop body on one guideline. *)
Definition is_public (guideline : dict) : bool :=
  is_False (get_none guideline "isLoginOnly")
  && is_False (get_none guideline "isRedirectedExternally").

(** The loop over [guidelines], appending to [public_guidelines];
    [guideline.get] raises on an element that is not a dict. *)
Fixpoint filter_public_loop (guidelines : list value) (public_guidelines : list dict)
    : res (list dict) :=
  match guidelines with
  | [] => Ok public_guidelines
  | VDict guideline :: rest =>
      if is_public guideline
      then filter_public_loop rest (public_guidelines ++ [guideline])
      else filter_public_loop rest public_guidelines
  | _ :: _ => Raise AttributeError
  end.

Definition filter_public_guidelines (guidelines : list value) : res (list dict) :=
  filter_public_loop guidelines [].

(** ** Record extractor *)

Section extractor.
Context `{Runtime}.

(** The names collected from a list of publishers or professions: a
    string as it is, a dict by [name] then [label], anything else
    skipped. *)
Definition collect_names (items : list value) : list value :=
  flat_map (λ item,
    match item with
    | VStr _ => [item]
    | VDict d => [get d "name" (get d "label" (VStr ""))]
    | _ => []
    end) items.

(** [sep.join(filter(None, names))] *)
Definition join_names (sep : string) (names : list value) : res string :=
  py_join sep (List.filter truthy names).

Definition extract_guideline_data (guideline : dict) : res (list value) :=
  let title := get guideline "title" (VStr "Unknown Title") in
  let dates := get guideline "dates" (VDict []) in
  date ← (if truthy dates then py_get dates "publishedBySource" (VStr "")
           else Ok (VStr ""));
  let publishers := get guideline "publishers" (VList []) in
  publisher ← (if truthy publishers then
                 match publishers with
                 | VList l => join_names " | " (collect_names l)
                 | _ => Ok (py_str publishers)
                 end
               else Ok "");
  let metadata := get guideline "metadata" (VDict []) in
  professions ← (if truthy metadata then
                   profession_list ← py_get metadata "professions" (VList []);
                   match profession_list with
                   | VList l => join_names ", " (collect_names l)
                   | VStr s => Ok s
                   | _ => Ok ""
                   end
                 else Ok "");
  let type_info := get guideline "type" (VDict []) in
  source_label ← (if truthy type_info then py_get type_info "label" (VStr "")
                   else Ok (VStr ""));
  source_type ← (if truthy type_info then py_get type_info "sourceType" (VStr "")
                  else Ok (VStr ""));
  Ok [title; date; VStr publisher; VStr professions; source_label; source_type].

End extractor.

(** ** CSV store *)

Definition CSV_HEADER : list string :=
  ["title"; "published_date"; "publisher"; "professions";
   "source_label"; "source_type"; "frontend_url"; "pdf_path"].

Definition UNIQUE_KEY_COLUMN_INDEX : nat := 6.

(** What [csv.reader] yields for one record of the file: its fields, or
    an exception (a decoding or CSV error at that record; a file that
    cannot be opened for reading raises in the same [try] block, like a
    file whose first record is corrupt). *)
Inductive line :=
  | Row (fields : list string)
  | Corrupt.

(** The file at [CSV_PATH]: absent, or a sequence of records. *)
Inductive csv_file :=
  | Missing
  | Lines (ls : list line).

(** [os.path.exists(csv_path)] *)
Definition exists_file (f : csv_file) : bool :=
  match f with Missing => false | _ => true end.

(** [initialize_csv]; [create_ok] tells whether the header can be
    written. The [IOError] is logged and raised again. *)
Definition initialize_csv (create_ok : bool) (f : csv_file) : res csv_file :=
  if negb (exists_file f) then
    if create_ok then Ok (Lines [Row CSV_HEADER]) else Raise OSError
  else Ok f.

(** The [for row in reader] loop. *)
Fixpoint read_rows (reader : list line) (processed_urls : gset string)
    : res (gset string) :=
  match reader with
  | [] => Ok processed_urls
  | Corrupt :: _ => Raise ValueError
  | Row row :: rest =>
      if bool_decide (UNIQUE_KEY_COLUMN_INDEX < length row)%nat
      then read_rows rest (processed_urls ∪ {[ nth UNIQUE_KEY_COLUMN_INDEX row "" ]})
      else read_rows rest processed_urls
  end.

(** The body of the [try] block of [load_processed_guidelines]. *)
Definition read_processed (f : csv_file) : res (gset string) :=
  match f with
  | Missing => Raise OSError
  | Lines [] => Ok ∅
  | Lines (Corrupt :: _) => Raise ValueError
  | Lines (Row header :: reader) =>
      if bool_decide (header = []) || negb (bool_decide (header = CSV_HEADER))
      then Ok ∅
      else read_rows reader ∅
  end.

Definition load_processed_guidelines (f : csv_file) : gset string :=
  if negb (exists_file f) then ∅
  else
    match read_processed f with
    | Ok processed_urls => processed_urls
    | Raise _ => ∅
    end.

(** How the write of one row goes: done, an [IOError], or another
    exception of the encoder or the CSV writer. *)
Inductive write_outcome := WriteOk | WriteIOError | WriteOtherError.

(** The file after a record is appended in mode ['a']. *)
Definition file_append (f : csv_file) (fields : list string) : csv_file :=
  match f with
  | Missing => Lines [Row fields]
  | Lines ls => Lines (ls ++ [Row fields])
  end.

Section pipeline.
Context `{Runtime}.

(** A field as [csv.writer] writes it: [None] as the empty string, a
    string as it is, anything else through [str()] (a float through
    [repr()], which is the same text). *)
Definition csv_field (v : value) : string :=
  match v with
  | VNone => ""
  | _ => py_str v
  end.

(** [append_to_csv]: only an [IOError] is caught (and logged). *)
Definition append_to_csv (o : write_outcome) (f : csv_file) (data_row : list value)
    : csv_file * res unit :=
  let attempt : csv_file * res unit :=
    match o with
    | WriteOk => (file_append f (csv_field <$> data_row), Ok ())
    | WriteIOError => (f, Raise OSError)
    | WriteOtherError => (f, Raise ValueError)
    end in
  match attempt.2 with
  | Raise e => if is_IOError e then (attempt.1, Ok ()) else attempt
  | Ok _ => attempt
  end.

(** ** Worker unit *)

(** What one unit of work meets. *)
Record unit_env := {
  capture : capture_env;
  csv_write : write_outcome
}.

Definition worker_process_and_save (env : unit_env) (guideline : dict)
    (f : csv_file) : csv_file * res unit :=
  let title := get guideline "title" (VStr "Unknown Title") in
  let attempt : csv_file * res unit :=
    match extract_guideline_data guideline with
    | Raise e => (f, Raise e)
    | Ok result_data =>
        let frontend_url := get guideline "frontendUrl" (VStr "") in
        let full_url :=
          if truthy frontend_url then SITE_URL +:+ py_str frontend_url else "" in
        match (if negb (String.eqb full_url "")
               then outcome (save_guideline_pdf (capture env) full_url title)
               else Ok "") with
        | Raise e => (f, Raise e)
        | Ok pdf_path =>
            let final_row := result_data ++ [frontend_url; VStr pdf_path] in
            append_to_csv (csv_write env) f final_row
        end
    end in
  match attempt.2 with
  | Raise _ => (attempt.1, Ok ())
  | Ok _ => attempt
  end.

(** ** Orchestrator *)

(** The loop of [process_guidelines] that builds
    [guidelines_to_process]. *)
Fixpoint select_unprocessed (public_guidelines : list dict)
    (processed_urls : gset string) (guidelines_to_process : list dict)
    : res (list dict) :=
  match public_guidelines with
  | [] => Ok guidelines_to_process
  | g :: rest =>
      let url := get g "frontendUrl" (VStr "") in
      let title := get g "title" (VStr "Unknown Title") in
      if negb (truthy url) then
        select_unprocessed rest processed_urls guidelines_to_process
      else
        seen ← py_in url processed_urls;
        if seen : bool then
          select_unprocessed rest processed_urls guidelines_to_process
        else
          select_unprocessed rest processed_urls (guidelines_to_process ++ [g])
  end.

(** The thread pool: every unit appends under the lock, in the order the
    schedule picks among the pending units ([i] picks the pending unit at
    position [i] modulo their number); when the schedule is exhausted the
    rest completes in submission order. *)
Fixpoint pool_run (schedule : list nat) (pending : list (unit_env * dict))
    (f : csv_file) : csv_file :=
  match schedule with
  | [] => foldl (λ f u, (worker_process_and_save u.1 u.2 f).1) f pending
  | i :: schedule' =>
      let k := (i mod length pending)%nat in
      match pending !! k with
      | None => f
      | Some u =>
          pool_run schedule' (delete k pending)
            (worker_process_and_save u.1 u.2 f).1
      end
  end.

(** [process_guidelines]: the units dispatched and the file afterwards;
    [envs i] is what the unit of the [i]-th dispatched guideline meets. *)
Definition process_guidelines (schedule : list nat) (envs : nat → unit_env)
    (public_guidelines : list dict) (processed_urls : gset string)
    (f : csv_file) : res (list dict * csv_file) :=
  guidelines_to_process ← select_unprocessed public_guidelines processed_urls [];
  let total_to_process := length guidelines_to_process in
  if Nat.eqb total_to_process 0 then Ok ([], f)
  else
    Ok (guidelines_to_process,
        pool_run schedule (imap (λ i g, (envs i, g)) guidelines_to_process) f).

(** What one run of [main] meets. *)
Record run_env := {
  create_ok : bool;
  upstream : Z → page_response;
  schedule : list nat;
  units : nat → unit_env
}.

(** [main]: the units dispatched and the file afterwards; [None] when the
    fetch does not end within [fuel] pages. *)
Definition main (fuel : nat) (env : run_env) (f : csv_file)
    : option (res (list dict * csv_file)) :=
  match initialize_csv (create_ok env) f with
  | Raise e => Some (Raise e)
  | Ok f =>
      let processed_urls := load_processed_guidelines f in
      match fetch_all_guidelines fuel (upstream env) with
      | None => None
      | Some all_guidelines =>
          match all_guidelines with
          | [] => Some (Ok ([], f))
          | _ =>
              match filter_public_guidelines all_guidelines with
              | Raise e => Some (Raise e)
              | Ok [] => Some (Ok ([], f))
              | Ok public_guidelines =>
                  Some (process_guidelines (schedule env) (units env)
                          public_guidelines processed_urls f)
              end
          end
      end
  end.

End pipeline.

(** ** The eligibility filter of the earlier script

    [__main__ebpnet_api.py] keeps a guideline when the text of
    [json.dumps(guideline)] contains the flag written as false. *)

Module Legacy.

(** The double quote and the backslash. *)
Definition dquote : ascii := ascii_of_nat 34.
Definition backslash : ascii := ascii_of_nat 92.

Definition hex_digit (n : N) : string :=
  match String.get (N.to_nat n) "0123456789abcdef" with
  | Some c => String c EmptyString
  | None => ""
  end.

(** One character of a string as [json.dumps] writes it with
    [ensure_ascii]: the quote, the backslash and the control characters
    escaped, a printable ASCII character as it is, any other character as
    a [u00xx] escape. A character of the model is a code point below 256. *)
Definition escape_char (c : ascii) : string :=
  let n := N_of_ascii c in
  if N.eqb n 34 then String backslash (String dquote EmptyString)
  else if N.eqb n 92 then String backslash (String backslash EmptyString)
  else if N.eqb n 8 then String backslash "b"
  else if N.eqb n 12 then String backslash "f"
  else if N.eqb n 10 then String backslash "n"
  else if N.eqb n 13 then String backslash "r"
  else if N.eqb n 9 then String backslash "t"
  else if N.leb 32 n && N.leb n 126 then String c EmptyString
  else String backslash "u00"
       +:+ hex_digit (N.div n 16) +:+ hex_digit (N.modulo n 16).

Fixpoint escape (s : string) : string :=
  match s with
  | EmptyString => ""
  | String c s' => escape_char c +:+ escape s'
  end.

Definition encode_str (s : string) : string :=
  String dquote (escape s +:+ String dquote EmptyString).

Section dumps.
Context `{Runtime}.

Definition float_dumps (f : pyfloat) : string :=
  match f with
  | FFin _ => repr (VFloat f)
  | FInf false => "Infinity"
  | FInf true => "-Infinity"
  | FNaN => "NaN"
  end.

(** [json.dumps(v)] with the default separators. *)
Fixpoint json_dumps (v : value) : string :=
  match v with
  | VNone => "null"
  | VBool true => "true"
  | VBool false => "false"
  | VInt n => str_int n
  | VFloat f => float_dumps f
  | VStr s => encode_str s
  | VList l => "[" +:+ join_strs ", " (map json_dumps l) +:+ "]"
  | VDict d =>
      "{" +:+ join_strs ", "
                (map (λ kv, match kv with
                            | (k, v') => encode_str k +:+ ": " +:+ json_dumps v'
                            end) d)
          +:+ "}"
  end.

(** [needle in haystack] *)
Fixpoint contains (needle haystack : string) : bool :=
  String.prefix needle haystack
  || match haystack with
     | EmptyString => false
     | String _ rest => contains needle rest
     end.

Definition flag_spaced : string :=
  String dquote ("isLoginOnly" +:+ String dquote ": false").
Definition flag_compact : string :=
  String dquote ("isLoginOnly" +:+ String dquote ":false").

Fixpoint filter_public_loop (guidelines public_guidelines : list value)
    : list value :=
  match guidelines with
  | [] => public_guidelines
  | guideline :: rest =>
      let guideline_json := json_dumps guideline in
      if contains flag_spaced guideline_json
         || contains flag_compact guideline_json
      then filter_public_loop rest (public_guidelines ++ [guideline])
      else filter_public_loop rest public_guidelines
  end.

Definition filter_public_guidelines (guidelines : list value) : list value :=
  filter_public_loop guidelines [].

End dumps.
End Legacy.

(** ** A concrete runtime and concrete inputs, for evaluation *)

(** [repr] as a placeholder for every float, list and dict. *)
Definition example_repr (v : value) : string := "<object>".

Lemma example_repr_nonempty v : example_repr v ≠ "".
Proof. discriminate. Qed.

(** A runtime in which [slugify] keeps its argument and [b64decode]
    accepts every text but ["!"], returning its bytes. *)
Definition example_runtime : Runtime := {|
  repr := example_repr;
  slugify := λ s, s;
  b64decode := λ s,
    if String.eqb s "!" then None else Some (String.list_byte_of_string s);
  getcwd := "/srv";
  repr_nonempty := example_repr_nonempty
|}.

(** ** Properties of the eligibility filter *)

(** The filter as the specification words it: kept iff [isLoginOnly] is
    the boolean false and [isRedirectedExternally], when present, is the
    boolean false. *)
Definition spec_keeps (guideline : dict) : bool :=
  is_False (get_none guideline "isLoginOnly")
  && match dict_get guideline "isRedirectedExternally" with
     | Some flag => is_False flag
     | None => true
     end.

Lemma get_none_False d k :
  is_False (get_none d k) = true ↔ dict_get d k = Some (VBool false).
Proof.
  unfold get_none, get. destruct (dict_get d k) as [[ | [] | | | | | ]|]; simpl;
    split; congruence.
Qed.

Lemma is_public_spec d :
  is_public d = true ↔
  dict_get d "isLoginOnly" = Some (VBool false)
  ∧ dict_get d "isRedirectedExternally" = Some (VBool false).
Proof.
  unfold is_public. rewrite andb_true_iff, !get_none_False. done.
Qed.

Lemma filter_public_loop_dicts (gs acc : list dict) :
  filter_public_loop (VDict <$> gs) acc = Ok (acc ++ List.filter is_public gs).
Proof.
  revert acc. induction gs as [|g gs IH]; intros acc; simpl.
  - by rewrite app_nil_r.
  - destruct (is_public g); rewrite IH; [|done].
    by rewrite <- app_assoc.
Qed.

(** C2, as the code has it: on every list of guideline objects the filter
    returns, in order, exactly the guidelines whose [isLoginOnly] and
    [isRedirectedExternally] flags are both present and both the boolean
    false; a guideline missing either flag is excluded. *)
Theorem filter_public_guidelines_both_flags (gs : list dict) :
  filter_public_guidelines (VDict <$> gs) = Ok (List.filter is_public gs)
  ∧ (∀ g, In g (List.filter is_public gs) ↔
          In g gs
          ∧ dict_get g "isLoginOnly" = Some (VBool false)
          ∧ dict_get g "isRedirectedExternally" = Some (VBool false))
  ∧ (∀ g, dict_get g "isLoginOnly" = None → ¬ In g (List.filter is_public gs))
  ∧ (∀ g, dict_get g "isRedirectedExternally" = None →
          ¬ In g (List.filter is_public gs)).
Proof.
  split; [apply filter_public_loop_dicts|].
  assert (Hin : ∀ g, In g (List.filter is_public gs) ↔
          In g gs
          ∧ dict_get g "isLoginOnly" = Some (VBool false)
          ∧ dict_get g "isRedirectedExternally" = Some (VBool false)).
  { intros g. rewrite filter_In, is_public_spec. done. }
  split; [exact Hin|].
  split; intros g Hnone Hg; apply Hin in Hg as (_ & H1 & H2); congruence.
Qed.

(** C2, refuted as stated: a guideline with [isLoginOnly] false and no
    [isRedirectedExternally] flag is kept by the specification's wording
    and dropped by the filter. *)
Lemma filter_public_guidelines_drops_missing_redirect_flag :
  let g : dict := [("title", VStr "A"); ("isLoginOnly", VBool false)] in
  spec_keeps g = true
  ∧ dict_get g "isRedirectedExternally" = None
  ∧ filter_public_guidelines [VDict g] = Ok [].
Proof. repeat split. Qed.

(** ** Properties of the content archiver *)

Section archiver_facts.
Context `{Runtime}.

(** The bytes the print path writes when every step of it succeeds. *)
Definition print_data (env : capture_env) : option (list byte) :=
  match print_page env, print_fs env with
  | Some pdf, FsOk => b64decode pdf
  | _, _ => None
  end.

(** The bytes the download path writes when every step of it succeeds. *)
Definition download_data (env : capture_env) : option (list byte) :=
  match pdf_link env with
  | Some (Some href) =>
      if String.eqb href "" then None
      else
        match requests_get env href, download_fs env with
        | Some (true, body), FsOk => Some body
        | _, _ => None
        end
  | _ => None
  end.

(** Whether a call ends with a file written by one of the strategies. *)
Definition capture_succeeds (env : capture_env) : bool :=
  chrome_starts env && page_loads env
  && ((content_marker env && bool_decide (is_Some (print_data env)))
      || bool_decide (is_Some (download_data env))).

Lemma app_empty_r (a b : string) : a +:+ b = "" → b = "".
Proof. destruct a; [done | discriminate]. Qed.

Lemma path_join_nonempty a b : b ≠ "" → path_join a b ≠ "".
Proof.
  intros Hb. unfold path_join.
  destruct (starts_with_slash b); [done|].
  destruct (_ || _); intros Heq.
  - by apply app_empty_r in Heq.
  - by apply app_empty_r, app_empty_r in Heq.
Qed.

Lemma pdf_path_of_nonempty env name : pdf_path_of env name ≠ "".
Proof.
  apply path_join_nonempty. intros Heq. by apply app_empty_r in Heq.
Qed.

End archiver_facts.

Section archiver_props.
Context `{Runtime}.

(** The inner [try]/[except] of [save_guideline_pdf]: both strategies. *)
Definition capture_strategies (env : capture_env) (pdf_path : string) : io unit :=
  try_except
    (_ ← call EFindContent
           (if content_marker env then Ok () else Raise NoSuchElementException);
     _print_page_to_pdf env pdf_path)
    (λ _, _download_linked_pdf env pdf_path).

(** [save_guideline_pdf] by the stage at which the call ends. *)
Lemma save_guideline_pdf_stages env url name :
  save_guideline_pdf env url name =
  let p := pdf_path_of env name in
  if chrome_starts env then
    if page_loads env then
      if content_marker env || bool_decide (is_Some (pdf_link env)) then
        let s := capture_strategies env p in
        IO ([EChrome; EDriverGet url; EWait] ++ trace s ++ [EQuit])
           (match outcome s with Ok _ => Ok p | Raise _ => Ok "" end)
      else IO [EChrome; EDriverGet url; EWait; EQuit] (Ok "")
    else IO [EChrome; EDriverGet url; EQuit] (Ok "")
  else IO [EChrome] (Ok "").
Proof.
  unfold save_guideline_pdf. fold (capture_strategies env (pdf_path_of env name)).
  generalize (capture_strategies env (pdf_path_of env name)). intros s.
  unfold wait_until_present, try_finally, try_except, call, mbind, io_bind,
    mret, io_ret.
  destruct (chrome_starts env), (page_loads env),
    (content_marker env || bool_decide (is_Some (pdf_link env)));
    simpl; try done.
  destruct (outcome s); simpl; by rewrite ?app_nil_r.
Qed.

(** The strategies by the branch taken. *)
Lemma capture_strategies_branches env p :
  capture_strategies env p =
  let pr := _print_page_to_pdf env p in
  let dl := _download_linked_pdf env p in
  if content_marker env then
    match outcome pr with
    | Ok _ => IO (EFindContent :: trace pr) (Ok ())
    | Raise _ => IO (EFindContent :: trace pr ++ trace dl) (outcome dl)
    end
  else IO (EFindContent :: trace dl) (outcome dl).
Proof.
  unfold capture_strategies.
  generalize (_print_page_to_pdf env p), (_download_linked_pdf env p).
  intros pr dl. unfold try_except, call, mbind, io_bind.
  destruct (content_marker env); simpl; [|done].
  destruct pr as [t [[]|e]]; done.
Qed.

(** What a helper that raises has done after its first calls: opened
    the output file or sent the request, nothing else. *)
Definition unfinished (p : string) (ev : event) : Prop :=
  ev = EOpen p ∨ ∃ href, ev = ERequestsGet href.

(** Closes the case of a helper that raises: exhibits its trace. *)
Local Ltac failed_helper :=
  eexists _, _; split; [reflexivity|];
  repeat apply Forall_cons_2; try apply Forall_nil_2; unfold unfinished; eauto.

(** The print helper: one trace and a normal return when every step
    succeeds, an exception otherwise. *)
Lemma print_helper_spec env p :
  match print_data env with
  | Some data =>
      _print_page_to_pdf env p
      = IO [EPrintHelper; EPrintPage; EOpen p; EWrite p data] (Ok ())
  | None =>
      ∃ t e, _print_page_to_pdf env p = IO (EPrintHelper :: EPrintPage :: t) (Raise e)
             ∧ Forall (unfinished p) t
  end.
Proof.
  unfold print_data, _print_page_to_pdf, open_wb, f_write, call, throw, mbind, io_bind,
    mret, io_ret.
  destruct (print_page env) as [pdf|]; simpl.
  - destruct (print_fs env); simpl; destruct (b64decode pdf); simpl;
      try done; by failed_helper.
  - by failed_helper.
Qed.

(** The download helper likewise. *)
Lemma download_helper_spec env p :
  match download_data env with
  | Some body =>
      ∃ href, pdf_link env = Some (Some href) ∧ href ≠ ""
              ∧ requests_get env href = Some (true, body)
              ∧ _download_linked_pdf env p
                = IO [EDownloadHelper; EFindLink; ERequestsGet href;
                      EOpen p; EWrite p body] (Ok ())
  | None =>
      ∃ t e, _download_linked_pdf env p = IO (EDownloadHelper :: EFindLink :: t) (Raise e)
             ∧ Forall (unfinished p) t
  end.
Proof.
  unfold download_data, _download_linked_pdf, open_wb, f_write, try_except, call, throw,
    mbind, io_bind, mret, io_ret.
  destruct (pdf_link env) as [[[|c href]|]|]; simpl; try by failed_helper.
  destruct (requests_get env (String c href)) as [[[] body]|] eqn:Hget; simpl;
    try by failed_helper.
  destruct (download_fs env); simpl; try by failed_helper.
  eexists; repeat split; done.
Qed.

(** No event of an unfinished helper is one of the events [evs]. *)
Lemma unfinished_not_in p t ev :
  Forall (unfinished p) t →
  (∀ q, ev ≠ EOpen q) → (∀ href, ev ≠ ERequestsGet href) → ¬ In ev t.
Proof.
  intros Ht Ho Hr Hin. rewrite Forall_forall in Ht.
  apply list_elem_of_In, Ht in Hin as [->|[href ->]]; [by eapply Ho | by eapply Hr].
Qed.

(** Splits on the outcome of both helpers at output path [p] and
    rewrites them to their traces. *)
Local Ltac helper_cases env p :=
  let Hpr := fresh "Hpr" in
  let Hdl := fresh "Hdl" in
  pose proof (print_helper_spec env p) as Hpr;
  pose proof (download_helper_spec env p) as Hdl;
  destruct (print_data env) as [data|] eqn:Hpd;
    [|destruct Hpr as (tp & ep & Hpr & Htp)];
  (destruct (download_data env) as [body|] eqn:Hdd;
    [destruct Hdl as (href & Hlink & Hne & Hget & Hdl)
    |destruct Hdl as (td & ed & Hdl & Htd)]);
  rewrite Hpr, Hdl.

(** The strategies neither start nor quit a session. *)
Lemma capture_strategies_inner env p :
  ¬ In EQuit (trace (capture_strategies env p))
  ∧ ¬ In EChrome (trace (capture_strategies env p)).
Proof.
  assert (Hq : ∀ t, Forall (unfinished p) t → ¬ In EQuit t ∧ ¬ In EChrome t).
  { intros t Ht. split; eapply unfinished_not_in; eauto; congruence. }
  rewrite capture_strategies_branches. cbv zeta.
  helper_cases env p;
    try (apply Hq in Htp as [? ?]); try (apply Hq in Htd as [? ?]);
    destruct (content_marker env); simpl; rewrite ?in_app_iff; simpl;
    intuition (try discriminate; eauto).
Qed.

(** The events of a call that is served by the print path alone. *)
Definition print_trace (url p : string) (data : list byte) : list event :=
  [EChrome; EDriverGet url; EWait; EFindContent;
   EPrintHelper; EPrintPage; EOpen p; EWrite p data; EQuit].

(** The events of a call that is served by the download path alone. *)
Definition download_trace (url p href : string) (body : list byte) : list event :=
  [EChrome; EDriverGet url; EWait; EFindContent;
   EDownloadHelper; EFindLink; ERequestsGet href; EOpen p; EWrite p body; EQuit].

(** C3, as the code has it: in a session that started and loaded the
    page, (1) with the content marker present and a print that succeeds,
    only the print path runs, the download helper is never entered and the
    printed bytes are what is written; (2) with the content marker present
    and a print that fails, the download helper is entered as the
    fallback; (3) with the content marker absent the print helper is never
    entered, and when the download of the linked resource succeeds the
    bytes written are exactly the body fetched from the link. *)
Theorem save_guideline_pdf_strategies env url name :
  chrome_starts env = true → page_loads env = true →
  let r := save_guideline_pdf env url name in
  let p := pdf_path_of env name in
  (content_marker env = true → ∀ data, print_data env = Some data →
     r = IO (print_trace url p data) (Ok p) ∧ ¬ In EDownloadHelper (trace r))
  ∧ (content_marker env = true → print_data env = None →
     In EPrintHelper (trace r) ∧ In EDownloadHelper (trace r))
  ∧ (content_marker env = false →
     ¬ In EPrintHelper (trace r) ∧ ¬ In EPrintPage (trace r)
     ∧ ∀ body, download_data env = Some body →
         ∃ href, pdf_link env = Some (Some href)
                 ∧ requests_get env href = Some (true, body)
                 ∧ r = IO (download_trace url p href body) (Ok p)).
Proof.
  intros Hc Hl r p. subst r p.
  rewrite save_guideline_pdf_stages, Hc, Hl. cbv zeta.
  rewrite capture_strategies_branches. cbv zeta.
  pose proof (print_helper_spec env (pdf_path_of env name)) as Hpr.
  pose proof (download_helper_spec env (pdf_path_of env name)) as Hdl.
  split; [|split]; intros Hm; rewrite Hm.
  - intros data Hd. rewrite Hd in Hpr. rewrite Hpr. simpl.
    split; [done|]. intuition discriminate.
  - intros Hd. rewrite Hd in Hpr. destruct Hpr as (t & e & -> & _).
    destruct (download_data env).
    + destruct Hdl as (href & _ & _ & _ & ->). simpl.
      rewrite !in_app_iff. simpl. tauto.
    + destruct Hdl as (t' & e' & -> & _). simpl.
      rewrite !in_app_iff. simpl. tauto.
  - destruct (download_data env) as [body|] eqn:Hd.
    + destruct Hdl as (href & Hlink & _ & Hget & ->). rewrite Hlink. simpl.
      split; [intuition discriminate|]. split; [intuition discriminate|].
      intros body' [= <-]. by exists href.
    + destruct Hdl as (t & e & -> & Ht).
      assert (¬ In EPrintHelper t ∧ ¬ In EPrintPage t) as [Hn1 Hn2].
      { split; eapply unfinished_not_in; eauto; congruence. }
      destruct (bool_decide (is_Some (pdf_link env))); simpl;
        rewrite ?in_app_iff; simpl; (split; [|split]); try done;
        intuition (try discriminate; eauto).
Qed.

(** What a call returns: the output path when a strategy completed its
    write, the empty string otherwise; never an exception. *)
Lemma save_guideline_pdf_outcome env url name :
  outcome (save_guideline_pdf env url name)
  = Ok (if capture_succeeds env then pdf_path_of env name else "").
Proof.
  rewrite save_guideline_pdf_stages. cbv zeta. unfold capture_succeeds.
  rewrite capture_strategies_branches. cbv zeta.
  destruct (chrome_starts env), (page_loads env); try done.
  helper_cases env (pdf_path_of env name); rewrite ?Hlink;
    destruct (content_marker env); simpl; try done;
    by destruct (bool_decide (is_Some (pdf_link env))).
Qed.

(** C4, as the code has it: a call never raises; it returns the output
    path, which is never empty, exactly when the session started, the
    page loaded and a strategy completed its write (the print path on a
    page with the content marker, or else the download path, which also
    serves as the fallback of a failed print), and the empty string in
    every other case; a session that was started is quit exactly once, as
    the last event of the call, and nothing follows a failed start. *)
Theorem save_guideline_pdf_never_raises env url name :
  let r := save_guideline_pdf env url name in
  let p := pdf_path_of env name in
  outcome r = Ok (if capture_succeeds env then p else "")
  ∧ p ≠ ""
  ∧ (chrome_starts env = true →
     ∃ t, trace r = EChrome :: t ++ [EQuit] ∧ ¬ In EQuit t ∧ ¬ In EChrome t)
  ∧ (chrome_starts env = false → trace r = [EChrome]).
Proof.
  intros r p. subst r p.
  split; [apply save_guideline_pdf_outcome|].
  split; [apply pdf_path_of_nonempty|].
  rewrite save_guideline_pdf_stages. cbv zeta.
  pose proof (capture_strategies_inner env (pdf_path_of env name)) as [Hq Hs].
  split; intros Hc; rewrite Hc; [|done].
  destruct (page_loads env);
    [|exists [EDriverGet url]; simpl; intuition discriminate].
  destruct (content_marker env || bool_decide (is_Some (pdf_link env)));
    [|exists [EDriverGet url; EWait]; simpl; intuition discriminate].
  exists (EDriverGet url :: EWait
          :: trace (capture_strategies env (pdf_path_of env name))).
  split; [done|]. simpl. intuition discriminate.
Qed.

End archiver_props.

(** *** The archiver on concrete pages *)

Definition pdf_bytes : list byte := String.list_byte_of_string "%PDF-1.7 linked".

(** A session that starts and loads a page with the content marker, on
    which printing works; there is no link. *)
Definition env_content_page : capture_env := {|
  uuid8 := "0a1b2c3d";
  chrome_starts := true;
  page_loads := true;
  content_marker := true;
  pdf_link := None;
  print_page := Some "%PDF-1.7 printed";
  print_fs := FsOk;
  requests_get := λ _, None;
  download_fs := FsOk
|}.

(** A page with both markers on which [driver.print_page] raises. *)
Definition env_print_raises : capture_env := {|
  uuid8 := "0a1b2c3d";
  chrome_starts := true;
  page_loads := true;
  content_marker := true;
  pdf_link := Some (Some "https://ebpnet.be/files/g1.pdf");
  print_page := None;
  print_fs := FsOk;
  requests_get := λ _, Some (true, pdf_bytes);
  download_fs := FsOk
|}.

(** A page with both markers on which the write of the printed bytes
    fails, while the linked file can be fetched and written. *)
Definition env_print_write_fails : capture_env := {|
  uuid8 := "0a1b2c3d";
  chrome_starts := true;
  page_loads := true;
  content_marker := true;
  pdf_link := Some (Some "https://ebpnet.be/files/g1.pdf");
  print_page := Some "%PDF-1.7 printed";
  print_fs := FsWriteFails;
  requests_get := λ _, Some (true, pdf_bytes);
  download_fs := FsOk
|}.

(** C3, refuted as stated: on a page where the content marker is present
    and printing raises, the download helper is entered. *)
Lemma save_guideline_pdf_print_failure_enters_download :
  content_marker env_print_raises = true
  ∧ In EDownloadHelper
       (trace (@save_guideline_pdf example_runtime env_print_raises
                 "https://ebpnet.be/nl/g/1" (VStr "G1"))).
Proof. split; [reflexivity|]. vm_compute. tauto. Qed.

(** The strategies on a page with the content marker that prints. *)
Lemma save_guideline_pdf_strategies_witness :
  chrome_starts env_content_page = true
  ∧ page_loads env_content_page = true
  ∧ ¬ In EDownloadHelper
        (trace (@save_guideline_pdf example_runtime env_content_page
                  "https://ebpnet.be/nl/g/1" (VStr "G1"))).
Proof.
  split; [reflexivity|]. split; [reflexivity|].
  destruct (@save_guideline_pdf_strategies example_runtime env_content_page
              "https://ebpnet.be/nl/g/1" (VStr "G1") eq_refl eq_refl)
    as (Hprint & _).
  exact (proj2 (Hprint eq_refl _ eq_refl)).
Defined.

(** C4, refuted as stated: the file write of the print path fails, and
    the call returns the output path, not the empty string. *)
Lemma save_guideline_pdf_write_failure_nonempty :
  print_fs env_print_write_fails = FsWriteFails
  ∧ outcome (@save_guideline_pdf example_runtime env_print_write_fails
               "https://ebpnet.be/nl/g/1" (VStr "G1"))
    = Ok "/srv/pdfs/G1-0a1b2c3d.pdf".
Proof. split; reflexivity. Qed.

(** ** Properties of the record extractor *)

(** The shape the extractor relies on: [dates], [metadata] and [type] are
    objects (or falsy, or absent), and the names it collects from
    [publishers] and from [metadata.professions], once the falsy ones are
    dropped, are strings. *)
Definition falsy_or_dict (v : value) : bool :=
  negb (truthy v) || isinstance_dict v.

Definition names_are_strs (items : list value) : bool :=
  forallb isinstance_str (List.filter truthy (collect_names items)).

Definition expected_shape (guideline : dict) : bool :=
  falsy_or_dict (get guideline "dates" (VDict []))
  && match get guideline "publishers" (VList []) with
     | VList l => names_are_strs l
     | _ => true
     end
  && falsy_or_dict (get guideline "metadata" (VDict []))
  && match get guideline "metadata" (VDict []) with
     | VDict m =>
         match get m "professions" (VList []) with
         | VList l => names_are_strs l
         | _ => true
         end
     | _ => true
     end
  && falsy_or_dict (get guideline "type" (VDict [])).

Section extractor_props.
Context `{Runtime}.

Lemma all_strs_ok items :
  forallb isinstance_str items = true → ∃ l, all_strs items = Ok l.
Proof.
  induction items as [|v items IH]; simpl; [by eexists|].
  destruct v; simpl; try done. intros [l ->]%IH. by eexists.
Qed.

Lemma all_strs_raises items :
  forallb isinstance_str items = false → all_strs items = Raise TypeError.
Proof.
  induction items as [|v items IH]; simpl; [done|].
  destruct v; simpl; try done. intros ->%IH. done.
Qed.

Lemma join_names_ok sep items :
  names_are_strs items = true → ∃ s, join_names sep (collect_names items) = Ok s.
Proof.
  unfold names_are_strs, join_names, py_join.
  intros [l ->]%all_strs_ok. by eexists.
Qed.

Lemma join_names_raises sep items :
  names_are_strs items = false →
  join_names sep (collect_names items) = Raise TypeError.
Proof.
  unfold names_are_strs, join_names, py_join. intros ->%all_strs_raises. done.
Qed.

(** A lookup that defaults to an empty container or string sees a
    missing key as that default. *)
Lemma get_missing d k default : dict_get d k = None → get d k default = default.
Proof. unfold get. by intros ->. Qed.

(** [.get(k, "")] guarded by the truth of the object, as the extractor
    reads [dates] and [type]. *)
Definition guarded_get (obj : value) (k : string) : res value :=
  if truthy obj then py_get obj k (VStr "") else Ok (VStr "").

Lemma guarded_get_ok obj k :
  falsy_or_dict obj = true →
  ∃ v, guarded_get obj k = Ok v
       ∧ (truthy obj = false → v = VStr "")
       ∧ (∀ d, obj = VDict d → dict_get d k = None → v = VStr "").
Proof.
  unfold falsy_or_dict, guarded_get. intros Hshape.
  destruct (truthy obj) eqn:Ht; simpl in *.
  - destruct obj; try done. simpl. eexists. split; [done|]. split; [done|].
    intros d' [= <-] ->. done.
  - eexists. split; [done|]. split; [done|]. intros d ->.
    destruct d; [|done]. done.
Qed.

Lemma guarded_get_raises obj k :
  falsy_or_dict obj = false → guarded_get obj k = Raise AttributeError.
Proof.
  unfold falsy_or_dict, guarded_get.
  destruct (truthy obj); [|done]. by destruct obj.
Qed.

(** The [publisher] block of the extractor. *)
Definition publisher_of (publishers : value) : res string :=
  if truthy publishers then
    match publishers with
    | VList l => join_names " | " (collect_names l)
    | _ => Ok (py_str publishers)
    end
  else Ok "".

(** The [professions] block of the extractor. *)
Definition professions_of (metadata : value) : res string :=
  if truthy metadata then
    profession_list ← py_get metadata "professions" (VList []);
    match profession_list with
    | VList l => join_names ", " (collect_names l)
    | VStr s => Ok s
    | _ => Ok ""
    end
  else Ok "".

Lemma professions_of_dict m :
  truthy (VDict m) = true →
  professions_of (VDict m) =
  match get m "professions" (VList []) with
  | VList l => join_names ", " (collect_names l)
  | VStr s => Ok s
  | _ => Ok ""
  end.
Proof. unfold professions_of. by intros ->. Qed.

Lemma extract_guideline_data_blocks g :
  extract_guideline_data g =
  (date ← guarded_get (get g "dates" (VDict [])) "publishedBySource";
   publisher ← publisher_of (get g "publishers" (VList []));
   professions ← professions_of (get g "metadata" (VDict []));
   source_label ← guarded_get (get g "type" (VDict [])) "label";
   source_type ← guarded_get (get g "type" (VDict [])) "sourceType";
   Ok [get g "title" (VStr "Unknown Title"); date; VStr publisher;
       VStr professions; source_label; source_type]).
Proof. reflexivity. Qed.

Lemma publisher_of_ok publishers :
  match publishers with VList l => names_are_strs l | _ => true end = true →
  ∃ s, publisher_of publishers = Ok s ∧ (truthy publishers = false → s = "").
Proof.
  unfold publisher_of. intros Hshape.
  destruct (truthy publishers) eqn:Ht; [|eexists; split; [reflexivity|done]].
  destruct publishers; try (eexists; split; [reflexivity|done]).
  destruct (join_names_ok " | " l Hshape) as [s ->].
  eexists; split; [reflexivity|done].
Qed.

Lemma professions_of_ok metadata :
  falsy_or_dict metadata = true →
  match metadata with
  | VDict m =>
      match get m "professions" (VList []) with
      | VList l => names_are_strs l
      | _ => true
      end
  | _ => true
  end = true →
  ∃ s, professions_of metadata = Ok s
       ∧ (truthy metadata = false → s = "")
       ∧ (∀ m, metadata = VDict m → dict_get m "professions" = None → s = "").
Proof.
  unfold professions_of, falsy_or_dict. intros Hdict Hshape.
  destruct (truthy metadata) eqn:Ht; simpl in *.
  - destruct metadata as [ | | | | | |m]; try done. simpl.
    fold (get m "professions" (VList [])).
    destruct (get m "professions" (VList [])) as [ | | | | |l| ] eqn:Hp;
      try (eexists; split; [done|]; split; [done|];
           intros m' [= <-] Hnone; by rewrite (get_missing _ _ _ Hnone) in Hp).
    destruct (join_names_ok ", " l Hshape) as [s Hs]. rewrite Hs.
    eexists; split; [done|]; split; [done|].
    intros m' [= <-] Hnone. rewrite (get_missing _ _ _ Hnone) in Hp.
    injection Hp as <-. by injection Hs as <-.
  - eexists; split; [done|]; split; [done|]. by intros [|] ->.
Qed.

(** C5, as the code has it: on every guideline of the expected shape the
    extractor returns a record and does not raise; the title defaults to
    "Unknown Title", and the date, publisher, professions, source label
    and source type are empty when the field, or the object that holds
    it, is missing. *)
Theorem extract_guideline_data_on_expected_shape g :
  expected_shape g = true →
  ∃ date publisher professions source_label source_type,
    extract_guideline_data g
    = Ok [get g "title" (VStr "Unknown Title"); date; VStr publisher;
          VStr professions; source_label; source_type]
    ∧ (dict_get g "title" = None →
       get g "title" (VStr "Unknown Title") = VStr "Unknown Title")
    ∧ (dict_get g "dates" = None → date = VStr "")
    ∧ (∀ d, dict_get g "dates" = Some (VDict d) →
            dict_get d "publishedBySource" = None → date = VStr "")
    ∧ (dict_get g "publishers" = None → publisher = "")
    ∧ (dict_get g "metadata" = None → professions = "")
    ∧ (∀ m, dict_get g "metadata" = Some (VDict m) →
            dict_get m "professions" = None → professions = "")
    ∧ (dict_get g "type" = None → source_label = VStr "" ∧ source_type = VStr "")
    ∧ (∀ t, dict_get g "type" = Some (VDict t) →
            (dict_get t "label" = None → source_label = VStr "")
            ∧ (dict_get t "sourceType" = None → source_type = VStr "")).
Proof.
  unfold expected_shape. rewrite !andb_true_iff.
  intros ((((Hdates & Hpubs) & Hmeta) & Hprofs) & Htype).
  rewrite extract_guideline_data_blocks.
  destruct (guarded_get_ok _ "publishedBySource" Hdates) as (date & -> & Hd1 & Hd2).
  destruct (publisher_of_ok _ Hpubs) as (publisher & -> & Hp1).
  destruct (professions_of_ok _ Hmeta Hprofs) as (professions & -> & Hm1 & Hm2).
  destruct (guarded_get_ok _ "label" Htype) as (label & -> & Hl1 & Hl2).
  destruct (guarded_get_ok _ "sourceType" Htype) as (stype & -> & Hs1 & Hs2).
  exists date, publisher, professions, label, stype.
  split; [done|].
  split; [apply get_missing|].
  split; [intros Hn; apply Hd1; by rewrite (get_missing _ _ _ Hn)|].
  split; [intros d Hd; apply Hd2; unfold get; by rewrite Hd|].
  split; [intros Hn; apply Hp1; by rewrite (get_missing _ _ _ Hn)|].
  split; [intros Hn; apply Hm1; by rewrite (get_missing _ _ _ Hn)|].
  split; [intros m Hm; apply Hm2; unfold get; by rewrite Hm|].
  split.
  - intros Hn. rewrite (get_missing _ _ _ Hn) in Hl1, Hs1. split; auto.
  - intros t Ht. split; [apply Hl2 | apply Hs2]; unfold get; by rewrite Ht.
Qed.

(** Off that shape the extractor raises. *)
Lemma extract_guideline_data_off_shape g :
  expected_shape g = false → ∃ e, extract_guideline_data g = Raise e.
Proof.
  unfold expected_shape. rewrite extract_guideline_data_blocks.
  destruct (falsy_or_dict (get g "dates" (VDict []))) eqn:Hdates;
    [|rewrite (guarded_get_raises _ _ Hdates); by eexists].
  destruct (guarded_get_ok _ "publishedBySource" Hdates) as (date & -> & _).
  simpl.
  destruct (match get g "publishers" (VList []) with
            | VList l => names_are_strs l | _ => true end) eqn:Hpubs.
  2:{ destruct (get g "publishers" (VList [])) as [ | | | | |l| ]; try done.
      unfold publisher_of.
      destruct l as [|v l]; [done|]. simpl truthy. cbv iota.
      rewrite (join_names_raises _ _ Hpubs). by eexists. }
  destruct (publisher_of_ok _ Hpubs) as (publisher & -> & _). simpl.
  destruct (falsy_or_dict (get g "metadata" (VDict []))) eqn:Hmeta.
  2:{ unfold professions_of, falsy_or_dict in *.
      destruct (truthy (get g "metadata" (VDict []))); [|done].
      destruct (get g "metadata" (VDict [])); try done; by eexists. }
  simpl.
  destruct (match get g "metadata" (VDict []) with
            | VDict m => _ | _ => true end) eqn:Hprofs.
  2:{ destruct (get g "metadata" (VDict [])) as [ | | | | | |m]; try done.
      destruct (truthy (VDict m)) eqn:Ht; [|by destruct m].
      rewrite (professions_of_dict _ Ht).
      destruct (get m "professions" (VList [])); try done.
      rewrite (join_names_raises _ _ Hprofs). by eexists. }
  destruct (professions_of_ok _ Hmeta Hprofs) as (professions & -> & _). simpl.
  intros Htype. rewrite (guarded_get_raises _ "label" Htype).
  eexists. reflexivity.
Qed.

End extractor_props.

(** C5, refuted as stated: a guideline whose [dates] field is a string
    makes the extractor raise. *)
Lemma extract_guideline_data_raises_on_string_dates :
  @extract_guideline_data example_runtime
    [("title", VStr "A"); ("dates", VStr "2020-01-01")]
  = Raise AttributeError.
Proof. reflexivity. Qed.

(** A name that is a number is not a string either. *)
Example extract_guideline_data_raises_on_numeric_name :
  @extract_guideline_data example_runtime
    [("publishers", VList [VDict [("name", VInt 7)]])]
  = Raise TypeError.
Proof. reflexivity. Qed.

Example extract_guideline_data_joins_names :
  @extract_guideline_data example_runtime
    [("title", VStr "A");
     ("publishers", VList [VStr "KCE"; VDict [("label", VStr "WOREL")];
                           VInt 3; VDict [("name", VNone)]]);
     ("metadata", VDict [("professions", VList [VStr "nurse"; VStr "gp"])]);
     ("type", VDict [("label", VStr "Guideline")])]
  = Ok [VStr "A"; VStr ""; VStr "KCE | WOREL"; VStr "nurse, gp";
        VStr "Guideline"; VStr ""].
Proof. reflexivity. Qed.

(** The extractor on a guideline with publishers only. *)
Lemma extract_guideline_data_on_expected_shape_witness :
  let g : dict :=
    [("publishers", VList [VStr "KCE"; VDict [("label", VStr "WOREL")]])] in
  expected_shape g = true
  ∧ ∃ date publisher professions source_label source_type,
      @extract_guideline_data example_runtime g
      = Ok [VStr "Unknown Title"; date; VStr publisher; VStr professions;
            source_label; source_type].
Proof.
  intros g. split; [reflexivity|].
  destruct (@extract_guideline_data_on_expected_shape example_runtime g eq_refl)
    as (date & publisher & professions & label & stype & Heq & _).
  exists date, publisher, professions, label, stype. exact Heq.
Defined.

(** ** Properties of the collection fetcher *)

(** A page whose request, status check or JSON parse fails. *)
Definition page_fails (r : page_response) : bool :=
  match r with
  | JsonBody _ => false
  | _ => true
  end.

(** The guidelines one page adds to the result. *)
Definition page_items (r : page_response) : list value :=
  match r with
  | JsonBody data =>
      match py_get data "guidelines" (VList []) with
      | Ok guidelines =>
          if truthy guidelines then
            match py_iter guidelines with
            | Ok items => items
            | Raise _ => []
            end
          else []
      | Raise _ => []
      end
  | _ => []
  end.

(** How the iteration on one page ends. *)
Definition page_exit (offset : Z) (r : page_response) : res loop_exit :=
  (fetch_page offset r []).2.

(** The guidelines of the pages [1 .. n]. *)
Definition pages_upto (upstream : Z → page_response) (n : nat) : list value :=
  flat_map (λ i, page_items (upstream (Z.of_nat i))) (seq 1 n).

Lemma fetch_page_acc offset r acc :
  fetch_page offset r acc = (acc ++ page_items r, page_exit offset r).
Proof.
  unfold page_exit, page_items, fetch_page.
  destruct r as [ | | |data]; simpl; rewrite ?app_nil_r; try done.
  destruct (py_get data "guidelines" (VList [])) as [guidelines|e]; simpl;
    rewrite ?app_nil_r; try done.
  destruct (truthy guidelines); simpl; rewrite ?app_nil_r; try done.
  destruct (py_iter guidelines); simpl; rewrite ?app_nil_r; done.
Qed.

Lemma page_fails_exit offset r :
  page_fails r = true → page_items r = [] ∧ ∃ e, page_exit offset r = Raise e.
Proof. destruct r; try done; intros _; (split; [done|]); by eexists. Qed.

Lemma flat_map_seq_shift {A} (f : nat → list A) a n :
  flat_map f (seq (S a) n) = flat_map (λ i, f (S i)) (seq a n).
Proof. revert a. induction n as [|n IH]; intros a; simpl; [done|]. by rewrite IH. Qed.

Lemma flat_map_seq_S {A} (f : nat → list A) a n :
  flat_map f (seq a (S n)) = f a ++ flat_map (λ i, f (S i)) (seq a n).
Proof.
  change (seq a (S n)) with (a :: seq (S a) n).
  simpl flat_map. by rewrite flat_map_seq_shift.
Qed.

(** The loop started at [offset], when the page [n] places further is
    the first that does not continue. *)
Lemma fetch_loop_reaches upstream n : ∀ fuel offset acc,
  (∀ i, (i < n)%nat →
        page_exit (offset + Z.of_nat i) (upstream (offset + Z.of_nat i)) = Ok Continue) →
  page_exit (offset + Z.of_nat n) (upstream (offset + Z.of_nat n)) ≠ Ok Continue →
  (n < fuel)%nat →
  fetch_loop fuel upstream offset acc
  = Some (acc ++ flat_map (λ i, page_items (upstream (offset + Z.of_nat i)))
                          (seq 0 (S n))).
Proof.
  induction n as [|n IH]; intros fuel offset acc Hcont Hstop Hfuel;
    (destruct fuel as [|fuel]; [lia|]); simpl fetch_loop;
    rewrite fetch_page_acc.
  - rewrite Z.add_0_r in Hstop. simpl. rewrite Z.add_0_r, app_nil_r.
    destruct (page_exit offset (upstream offset)) as [[]|]; done.
  - pose proof (Hcont 0%nat ltac:(lia)) as H0. rewrite Z.add_0_r in H0.
    rewrite H0.
    rewrite (IH fuel (offset + 1) (acc ++ page_items (upstream offset))).
    + rewrite <- app_assoc. f_equal. f_equal.
      rewrite (flat_map_seq_S _ 0 (S n)), Z.add_0_r. f_equal.
      apply flat_map_ext. intros i. f_equal. f_equal. lia.
    + intros i Hi. specialize (Hcont (S i) ltac:(lia)).
      by replace (offset + 1 + Z.of_nat i) with (offset + Z.of_nat (S i)) by lia.
    + by replace (offset + 1 + Z.of_nat n) with (offset + Z.of_nat (S n)) by lia.
    + lia.
Qed.

(** The loop ends, at the latest, on a page that fails. *)
Lemma fetch_loop_ends upstream n : ∀ fuel offset acc,
  page_fails (upstream (offset + Z.of_nat n)) = true →
  (n < fuel)%nat →
  ∃ l, fetch_loop fuel upstream offset acc = Some l.
Proof.
  induction n as [|n IH]; intros fuel offset acc Hfail Hfuel;
    (destruct fuel as [|fuel]; [lia|]); simpl fetch_loop;
    rewrite fetch_page_acc.
  - rewrite Z.add_0_r in Hfail.
    destruct (page_fails_exit offset _ Hfail) as [_ [e ->]]. by eexists.
  - destruct (page_exit offset (upstream offset)) as [[]|]; try by eexists.
    apply IH; [|lia].
    by replace (offset + 1 + Z.of_nat n) with (offset + Z.of_nat (S n)) by lia.
Qed.

(** C6: when the request, the status check or the JSON parse of page [k]
    fails, the fetch returns a list and does not raise, within [k]
    iterations; and when the pagination gets as far as page [k] (every
    earlier page continues the loop), it returns exactly the guidelines of
    the pages [1 .. k-1]. *)
Theorem fetch_all_guidelines_stops_at_failed_page upstream (k fuel : nat) :
  (1 ≤ k)%nat →
  page_fails (upstream (Z.of_nat k)) = true →
  (k ≤ fuel)%nat →
  (∃ l, fetch_all_guidelines fuel upstream = Some l)
  ∧ ((∀ i, (1 ≤ i < k)%nat →
           page_exit (Z.of_nat i) (upstream (Z.of_nat i)) = Ok Continue) →
     fetch_all_guidelines fuel upstream = Some (pages_upto upstream (k - 1))).
Proof.
  intros Hk Hfail Hfuel. unfold fetch_all_guidelines.
  destruct k as [|n]; [lia|].
  replace (Z.of_nat (S n)) with (1 + Z.of_nat n) in Hfail by lia.
  split; [apply (fetch_loop_ends upstream n); [done | lia]|].
  intros Hcont.
  destruct (page_fails_exit (1 + Z.of_nat n) _ Hfail) as [Hnil [e He]].
  rewrite (fetch_loop_reaches upstream n); [| |congruence|lia].
  - rewrite app_nil_l. f_equal. unfold pages_upto.
    replace (S n - 1)%nat with n by lia.
    rewrite seq_S, flat_map_app. simpl flat_map at 2.
    rewrite Hnil, !app_nil_r, flat_map_seq_shift.
    apply flat_map_ext. intros i. f_equal. f_equal. lia.
  - intros i Hi. specialize (Hcont (S i) ltac:(lia)).
    by replace (1 + Z.of_nat i) with (Z.of_nat (S i)) by lia.
Qed.

(** An upstream with two full pages and a third whose request fails. *)
Definition upstream_fails_on_third (offset : Z) : page_response :=
  if Z.eqb offset 1 then
    JsonBody (VDict [("guidelines", VList [VStr "g1"; VStr "g2"]);
                     ("pagination", VDict [("totalPages", VInt 5)])])
  else if Z.eqb offset 2 then
    JsonBody (VDict [("guidelines", VList [VStr "g3"])])
  else RequestFails.

(** The fetch on that upstream returns the guidelines of two pages. *)
Lemma fetch_all_guidelines_stops_at_failed_page_witness :
  (1 ≤ 3)%nat
  ∧ page_fails (upstream_fails_on_third (Z.of_nat 3)) = true
  ∧ (3 ≤ 3)%nat
  ∧ fetch_all_guidelines 3 upstream_fails_on_third
    = Some [VStr "g1"; VStr "g2"; VStr "g3"].
Proof.
  split; [lia|]. split; [reflexivity|]. split; [lia|].
  destruct (fetch_all_guidelines_stops_at_failed_page
              upstream_fails_on_third 3 3 ltac:(lia) eq_refl ltac:(lia))
    as [_ Hexact].
  apply Hexact. intros i Hi.
  assert (i = 1 ∨ i = 2)%nat as [-> | ->] by lia; reflexivity.
Defined.

(** A failure after the page's guidelines were appended (here a
    [pagination] that is not an object) keeps them: only the failures
    before the append return the earlier pages alone. *)
Example fetch_all_guidelines_keeps_page_on_late_failure :
  fetch_all_guidelines 1
    (λ _, JsonBody (VDict [("guidelines", VList [VStr "g1"]);
                           ("pagination", VStr "none")]))
  = Some [VStr "g1"].
Proof. reflexivity. Qed.

(** ** Properties of the CSV store *)

(** The key of a data row: its [frontend_url] column, when it has one. *)
Definition row_key (row : list string) : option string :=
  row !! UNIQUE_KEY_COLUMN_INDEX.

Lemma row_key_nth row :
  (UNIQUE_KEY_COLUMN_INDEX < length row)%nat →
  row_key row = Some (nth UNIQUE_KEY_COLUMN_INDEX row "").
Proof.
  intros Hlen. unfold row_key.
  destruct (lookup_lt_is_Some_2 row _ Hlen) as [u Hu].
  rewrite Hu. f_equal. by rewrite nth_lookup, Hu.
Qed.

Lemma row_key_short row :
  ¬ (UNIQUE_KEY_COLUMN_INDEX < length row)%nat → row_key row = None.
Proof. intros Hlen. apply lookup_ge_None_2. lia. Qed.

(** The reading loop on a file without corrupt records. *)
Lemma read_rows_rows rows : ∀ processed_urls,
  read_rows (Row <$> rows) processed_urls
  = Ok (processed_urls ∪ list_to_set (omap row_key rows)).
Proof.
  induction rows as [|row rows IH]; intros S; simpl.
  - f_equal. set_solver.
  - case_bool_decide as Hlen; rewrite IH; f_equal.
    + change (omap row_key (row :: rows))
        with (from_option (λ u, u :: omap row_key rows) (omap row_key rows)
                (row_key row)).
      rewrite (row_key_nth _ Hlen). simpl. set_solver.
    + change (omap row_key (row :: rows))
        with (from_option (λ u, u :: omap row_key rows) (omap row_key rows)
                (row_key row)).
      by rewrite (row_key_short _ Hlen).
Qed.

(** The reading loop raises at the first corrupt record. *)
Lemma read_rows_corrupt before after : ∀ processed_urls,
  read_rows ((Row <$> before) ++ Corrupt :: after) processed_urls
  = Raise ValueError.
Proof.
  induction before as [|row before IH]; intros S; simpl; [done|].
  case_bool_decide; apply IH.
Qed.

Lemma load_processed_guidelines_rows rows :
  load_processed_guidelines (Lines (Row CSV_HEADER :: (Row <$> rows)))
  = list_to_set (omap row_key rows).
Proof.
  unfold load_processed_guidelines. simpl.
  rewrite read_rows_rows. set_solver.
Qed.

(** C8: loading never raises; a missing file, an empty file and a file
    whose header row differs from the expected header give the empty set;
    a file with the expected header whose data rows all have a
    [frontend_url] column gives exactly the set of the values in that
    column. *)
Theorem load_processed_guidelines_lenient :
  load_processed_guidelines Missing = ∅
  ∧ load_processed_guidelines (Lines []) = ∅
  ∧ (∀ header rest,
       header ≠ CSV_HEADER →
       load_processed_guidelines (Lines (Row header :: rest)) = ∅)
  ∧ (∀ rows,
       Forall (λ row, (UNIQUE_KEY_COLUMN_INDEX < length row)%nat) rows →
       load_processed_guidelines (Lines (Row CSV_HEADER :: (Row <$> rows)))
       = list_to_set ((λ row, nth UNIQUE_KEY_COLUMN_INDEX row "") <$> rows)).
Proof.
  split; [done|]. split; [done|]. split.
  - intros header rest Hneq. unfold load_processed_guidelines. simpl.
    case_bool_decide; simpl; [done|].
    case_bool_decide; simpl; done.
  - intros rows Hrows. rewrite load_processed_guidelines_rows. f_equal.
    induction Hrows as [|row rows Hrow _ IH]; [done|].
    rewrite fmap_cons, <- IH.
    change (omap row_key (row :: rows))
      with (from_option (λ u, u :: omap row_key rows) (omap row_key rows)
              (row_key row)).
    by rewrite (row_key_nth _ Hrow).
Qed.

(** C10: a data row with fewer than seven fields contributes no key (the
    result is the same with the row and without it), and a reading error
    at any record after the header discards the keys of the rows before
    it: the result is the empty set. *)
Theorem load_processed_guidelines_short_and_corrupt
    (rows1 rows2 before : list (list string)) (short : list string)
    (after : list line) :
  (length short < 7)%nat →
  load_processed_guidelines
    (Lines (Row CSV_HEADER :: (Row <$> rows1 ++ short :: rows2)))
  = load_processed_guidelines
      (Lines (Row CSV_HEADER :: (Row <$> rows1 ++ rows2)))
  ∧ load_processed_guidelines
      (Lines (Row CSV_HEADER :: (Row <$> before) ++ Corrupt :: after))
    = ∅.
Proof.
  intros Hshort. split.
  - rewrite !load_processed_guidelines_rows, !omap_app. simpl.
    rewrite row_key_short; [done|]. unfold UNIQUE_KEY_COLUMN_INDEX. lia.
  - unfold load_processed_guidelines. simpl.
    by rewrite read_rows_corrupt.
Qed.

(** The data rows of a store that holds [A] and [B]. *)
Definition example_rows : list (list string) :=
  [["A"; "2020"; "KCE"; "gp"; "Guideline"; "x"; "/nl/a"; "/srv/pdfs/a.pdf"];
   ["B"; ""; ""; ""; ""; ""; "/nl/b"; ""]].

(** Loading that store under a foreign header and under the expected
    one. *)
Lemma load_processed_guidelines_lenient_witness :
  load_processed_guidelines
    (Lines (Row ["title"; "pdf_path"] :: (Row <$> example_rows))) = ∅
  ∧ load_processed_guidelines (Lines (Row CSV_HEADER :: (Row <$> example_rows)))
    = {["/nl/a"; "/nl/b"]}.
Proof.
  destruct load_processed_guidelines_lenient as (_ & _ & Hheader & Hrows).
  split.
  - apply Hheader. discriminate.
  - rewrite Hrows; [simpl; set_solver|].
    repeat constructor.
Defined.

(** Loading that store with a short row added, and with a corrupt record
    at its end. *)
Lemma load_processed_guidelines_short_and_corrupt_witness :
  (length ["C"; "2021"] < 7)%nat
  ∧ load_processed_guidelines
      (Lines (Row CSV_HEADER :: (Row <$> example_rows ++ ["C"; "2021"] :: [])))
    = load_processed_guidelines
        (Lines (Row CSV_HEADER :: (Row <$> example_rows ++ [])))
  ∧ load_processed_guidelines
      (Lines (Row CSV_HEADER :: (Row <$> example_rows) ++ Corrupt :: []))
    = ∅.
Proof.
  assert (Hlen : (length ["C"; "2021"] < 7)%nat) by (simpl; lia).
  split; [exact Hlen|].
  exact (load_processed_guidelines_short_and_corrupt
           example_rows [] example_rows ["C"; "2021"] [] Hlen).
Defined.

(** ** Properties of the worker unit and the orchestrator *)

Section pipeline_props.
Context `{Runtime}.

(** The [frontendUrl] and the title of a guideline, as every function
    reads them. *)
Definition frontend_url_of (g : dict) : value := get g "frontendUrl" (VStr "").
Definition title_of (g : dict) : value := get g "title" (VStr "Unknown Title").

(** The URL the unit hands to the archiver. *)
Definition full_url_of (g : dict) : string :=
  if truthy (frontend_url_of g) then SITE_URL +:+ py_str (frontend_url_of g)
  else "".

(** The [pdf_path] column of the row the unit builds. *)
Definition unit_pdf_path (env : unit_env) (g : dict) : string :=
  if truthy (frontend_url_of g) then
    if capture_succeeds (capture env) then pdf_path_of (capture env) (title_of g)
    else ""
  else "".

Lemma full_url_empty g :
  String.eqb (full_url_of g) "" = negb (truthy (frontend_url_of g)).
Proof. unfold full_url_of. by destruct (truthy (frontend_url_of g)). Qed.

Lemma append_to_csv_result o f data_row :
  append_to_csv o f data_row
  = (match o with
     | WriteOk => file_append f (csv_field <$> data_row)
     | _ => f
     end,
     match o with
     | WriteOtherError => Raise ValueError
     | _ => Ok ()
     end).
Proof. by destruct o. Qed.

(** The unit in closed form: it returns normally in every case; a row
    lands when the extraction returns and the write succeeds. *)
Lemma worker_process_and_save_result env g f :
  worker_process_and_save env g f
  = (match extract_guideline_data g, csv_write env with
     | Ok result_data, WriteOk =>
         file_append f
           (csv_field <$> result_data
                          ++ [frontend_url_of g; VStr (unit_pdf_path env g)])
     | _, _ => f
     end,
     Ok ()).
Proof.
  unfold worker_process_and_save.
  destruct (extract_guideline_data g) as [result_data|e]; [|done].
  fold (frontend_url_of g) (title_of g) (full_url_of g).
  rewrite full_url_empty, negb_involutive, save_guideline_pdf_outcome.
  unfold unit_pdf_path.
  destruct (truthy (frontend_url_of g)); cbv iota;
    rewrite append_to_csv_result; by destruct (csv_write env).
Qed.

Lemma extract_guideline_data_length g result_data :
  extract_guideline_data g = Ok result_data → length result_data = 6%nat.
Proof.
  rewrite extract_guideline_data_blocks.
  destruct (guarded_get _ "publishedBySource"); [|done]. simpl.
  destruct (publisher_of _); [|done]. simpl.
  destruct (professions_of _); [|done]. simpl.
  destruct (guarded_get _ "label"); [|done]. simpl.
  destruct (guarded_get _ "sourceType"); [|done]. simpl.
  by intros [= <-].
Qed.

Lemma str_int_nonempty n : str_int n ≠ "".
Proof.
  unfold str_int. destruct (Z.to_int n) as [d|d]; simpl; [|done].
  by destruct d.
Qed.

(** A truthy [frontendUrl] is written as a non-empty field. *)
Lemma csv_field_truthy v : truthy v = true → csv_field v ≠ "".
Proof.
  destruct v as [ |[]|n| |s| | ]; simpl; try done;
    try (intros _; apply repr_nonempty).
  - intros _. apply str_int_nonempty.
  - by destruct s.
Qed.

(** C7: when the extraction has returned and the capture returns the
    empty string, the unit returns normally, and what it does to the store
    is exactly the append of the row made of the extracted metadata, the
    guideline's [frontendUrl] and an empty [pdf_path]; that row is the new
    last record of the file when the write succeeds. *)
Theorem worker_appends_metadata_on_capture_failure env g f result_data :
  extract_guideline_data g = Ok result_data →
  outcome (save_guideline_pdf (capture env)
             (SITE_URL +:+ py_str (frontend_url_of g)) (title_of g)) = Ok "" →
  let final_row := result_data ++ [frontend_url_of g; VStr ""] in
  (worker_process_and_save env g f).2 = Ok ()
  ∧ (worker_process_and_save env g f).1
    = (append_to_csv (csv_write env) f final_row).1
  ∧ (csv_write env = WriteOk →
     (worker_process_and_save env g f).1
     = file_append f (csv_field <$> final_row)).
Proof.
  intros Hextract Hcapture final_row. subst final_row.
  rewrite worker_process_and_save_result, append_to_csv_result, Hextract.
  assert (Hpdf : unit_pdf_path env g = "").
  { unfold unit_pdf_path. rewrite save_guideline_pdf_outcome in Hcapture.
    destruct (truthy (frontend_url_of g)); [|done].
    destruct (capture_succeeds (capture env)); [|done].
    injection Hcapture as Hp. by apply pdf_path_of_nonempty in Hp. }
  rewrite Hpdf. simpl. split; [done|]. split; [done|]. by intros ->.
Qed.

(** The selection loop keeps what it had and adds, in order, guidelines
    of the input whose [frontendUrl] is truthy. *)
Lemma select_unprocessed_adds public processed : ∀ acc l,
  select_unprocessed public processed acc = Ok l →
  ∃ new, l = acc ++ new
         ∧ ∀ g, In g new → In g public ∧ truthy (frontend_url_of g) = true.
Proof.
  induction public as [|g public IH]; intros acc l; simpl.
  - intros [= <-]. exists []. by rewrite app_nil_r.
  - fold (frontend_url_of g).
    destruct (truthy (frontend_url_of g)) eqn:Hurl; simpl.
    + destruct (py_in (frontend_url_of g) processed) as [[]|]; simpl; [| |done].
      * intros (new & -> & Hnew)%IH. exists new. split; [done|].
        intros g' Hg'. destruct (Hnew g' Hg'). auto.
      * intros (new & -> & Hnew)%IH. exists (g :: new).
        split; [by rewrite <- app_assoc|].
        intros g' [<-|Hg']; [auto|]. destruct (Hnew g' Hg'). auto.
    + intros (new & -> & Hnew)%IH. exists new. split; [done|].
      intros g' Hg'. destruct (Hnew g' Hg'). auto.
Qed.

(** When every guideline with a truthy [frontendUrl] has it in the
    processed set, the loop adds nothing. *)
Lemma select_unprocessed_all_seen public (processed : gset string) : ∀ acc,
  (∀ g, In g public → truthy (frontend_url_of g) = true →
        ∃ u, frontend_url_of g = VStr u ∧ u ∈ processed) →
  select_unprocessed public processed acc = Ok acc.
Proof.
  induction public as [|g public IH]; intros acc Hseen; simpl; [done|].
  fold (frontend_url_of g).
  destruct (truthy (frontend_url_of g)) eqn:Hurl; simpl.
  - destruct (Hseen g (or_introl eq_refl) Hurl) as (u & -> & Hu). simpl.
    rewrite bool_decide_true by done. apply IH. intros g' Hg'. apply Hseen. by right.
  - apply IH. intros g' Hg'. apply Hseen. by right.
Qed.

(** The rows a unit can append for [g]: eight fields, the seventh being
    the guideline's [frontendUrl] as the writer renders it. *)
Definition row_of (g : dict) (row : list string) : Prop :=
  length row = 8%nat
  ∧ row !! UNIQUE_KEY_COLUMN_INDEX = Some (csv_field (frontend_url_of g)).

Lemma worker_process_and_save_appends env g f :
  (worker_process_and_save env g f).1 = f
  ∨ ∃ row, (worker_process_and_save env g f).1 = file_append f row ∧ row_of g row.
Proof.
  rewrite worker_process_and_save_result. simpl.
  destruct (extract_guideline_data g) as [result_data|] eqn:Hextract; [|by left].
  destruct (csv_write env); try by left.
  right. eexists. split; [done|].
  apply extract_guideline_data_length in Hextract.
  unfold row_of. rewrite length_fmap, length_app, Hextract. split; [done|].
  rewrite list_lookup_fmap, lookup_app_r by (rewrite Hextract; done).
  by rewrite Hextract.
Qed.

(** The units of a pool in submission order. *)
Lemma pool_in_order pending : ∀ f,
  ∃ rows, foldl (λ f u, (worker_process_and_save u.1 u.2 f).1) f pending
          = foldl file_append f rows
          ∧ ∀ row, In row rows → ∃ u, In u pending ∧ row_of u.2 row.
Proof.
  induction pending as [|u pending IH]; intros f; simpl.
  - exists []. split; [done|]. by intros row [].
  - destruct (worker_process_and_save_appends u.1 u.2 f) as [->|(row & -> & Hrow)].
    + destruct (IH f) as (rows & -> & Hrows). exists rows. split; [done|].
      intros r Hr. destruct (Hrows r Hr) as (u' & ? & ?). eauto.
    + destruct (IH (file_append f row)) as (rows & -> & Hrows).
      exists (row :: rows). split; [done|].
      intros r [<-|Hr]; [eauto|]. destruct (Hrows r Hr) as (u' & ? & ?). eauto.
Qed.

(** Whatever the schedule, the pool appends rows of its pending units. *)
Lemma pool_run_appends schedule : ∀ pending f,
  ∃ rows, pool_run schedule pending f = foldl file_append f rows
          ∧ ∀ row, In row rows → ∃ u, In u pending ∧ row_of u.2 row.
Proof.
  induction schedule as [|i schedule IH]; intros pending f; simpl.
  - apply pool_in_order.
  - destruct (pending !! (i mod length pending)%nat) as [u|] eqn:Hu.
    2:{ exists []. split; [done|]. by intros row []. }
    assert (Hin : In u pending).
    { apply list_elem_of_In. by eapply list_elem_of_lookup_2. }
    assert (Hsub : ∀ u', In u' (delete (i mod length pending)%nat pending) →
                         In u' pending).
    { intros u' Hu'. apply list_elem_of_In. apply list_elem_of_In in Hu'.
      by eapply list_elem_of_delete_inv. }
    destruct (worker_process_and_save_appends u.1 u.2 f) as [->|(row & -> & Hrow)].
    + destruct (IH (delete (i mod length pending)%nat pending) f)
        as (rows & -> & Hrows).
      exists rows. split; [done|].
      intros r Hr. destruct (Hrows r Hr) as (u' & ? & ?). eauto.
    + destruct (IH (delete (i mod length pending)%nat pending) (file_append f row))
        as (rows & -> & Hrows).
      exists (row :: rows). split; [done|].
      intros r [<-|Hr]; [eauto|]. destruct (Hrows r Hr) as (u' & ? & ?). eauto.
Qed.

(** C9: the guidelines dispatched are guidelines of the input with a
    truthy [frontendUrl], so one whose [frontendUrl] is absent or the
    empty string is not dispatched; and, whatever the schedule of the
    pool, the file afterwards is the file before with rows appended, each
    of which has eight fields and carries in the [frontend_url] column the
    non-empty [frontendUrl] of a dispatched guideline. *)
Theorem process_guidelines_rows_carry_url schedule envs public processed f
    to_process f' :
  process_guidelines schedule envs public processed f = Ok (to_process, f') →
  (∀ g, In g to_process → In g public ∧ truthy (frontend_url_of g) = true)
  ∧ (∀ g, dict_get g "frontendUrl" = None
          ∨ dict_get g "frontendUrl" = Some (VStr "") → ¬ In g to_process)
  ∧ ∃ rows,
      f' = foldl file_append f rows
      ∧ ∀ row, In row rows →
          ∃ g, In g to_process
               ∧ length row = 8%nat
               ∧ row !! UNIQUE_KEY_COLUMN_INDEX
                 = Some (csv_field (frontend_url_of g))
               ∧ csv_field (frontend_url_of g) ≠ "".
Proof.
  unfold process_guidelines.
  destruct (select_unprocessed public processed []) as [l|e] eqn:Hsel; [|done].
  apply select_unprocessed_adds in Hsel as (new & -> & Hnew). simpl.
  assert (Hdispatched : ∀ g, In g new →
            In g public ∧ truthy (frontend_url_of g) = true) by done.
  destruct (Nat.eqb (length new) 0) eqn:Hlen.
  - intros [= <- <-]. split; [by intros g []|]. split; [by intros g _ []|].
    exists []. split; [done|]. by intros row [].
  - intros [= <- <-]. split; [done|]. split.
    + intros g Hg Hin. apply Hdispatched in Hin as [_ Hurl].
      unfold frontend_url_of, get in Hurl. by destruct Hg as [Hg|Hg]; rewrite Hg in Hurl.
    + destruct (pool_run_appends schedule (imap (λ i g, (envs i, g)) new) f)
        as (rows & -> & Hrows).
      exists rows. split; [done|].
      intros row Hrow. destruct (Hrows row Hrow) as (u & Hu & Hlen8 & Hkey).
      apply list_elem_of_In, elem_of_lookup_imap in Hu as (i & g & -> & Hg).
      apply list_elem_of_lookup_2, list_elem_of_In in Hg.
      exists g. split; [done|]. split; [done|]. split; [done|].
      apply csv_field_truthy. by apply Hdispatched.
Qed.

(** C1: when every eligible guideline that has a [frontendUrl] has it in
    the set of keys loaded from the store, [process_guidelines] called as
    [main] calls it dispatches no unit and leaves the file as it is, and
    so does the whole run of [main] on the existing store. *)
Theorem process_guidelines_idempotent fuel env f all_guidelines public :
  exists_file f = true →
  fetch_all_guidelines fuel (upstream env) = Some all_guidelines →
  filter_public_guidelines all_guidelines = Ok public →
  (∀ g, In g public → truthy (frontend_url_of g) = true →
        ∃ u, frontend_url_of g = VStr u ∧ u ∈ load_processed_guidelines f) →
  process_guidelines (schedule env) (units env) public
    (load_processed_guidelines f) f = Ok ([], f)
  ∧ main fuel env f = Some (Ok ([], f)).
Proof.
  intros Hexists Hfetch Hfilter Hseen.
  assert (Hprocess : process_guidelines (schedule env) (units env) public
                       (load_processed_guidelines f) f = Ok ([], f)).
  { unfold process_guidelines.
    by rewrite (select_unprocessed_all_seen _ _ [] Hseen). }
  split; [done|].
  unfold main, initialize_csv. rewrite Hexists, Hfetch. simpl.
  destruct all_guidelines; [done|]. rewrite Hfilter.
  rewrite Hprocess. by destruct public.
Qed.

End pipeline_props.

(** *** The pipeline on a concrete collection *)

Definition guideline_a : dict :=
  [("title", VStr "A"); ("frontendUrl", VStr "/nl/a");
   ("isLoginOnly", VBool false); ("isRedirectedExternally", VBool false);
   ("publishers", VList [VStr "KCE"])].

Definition guideline_b : dict :=
  [("title", VStr "B"); ("frontendUrl", VStr "/nl/b");
   ("isLoginOnly", VBool false); ("isRedirectedExternally", VBool false)].

(** Login-only, and without a [frontendUrl]. *)
Definition guideline_c : dict :=
  [("title", VStr "C"); ("isLoginOnly", VBool true);
   ("isRedirectedExternally", VBool false)].

(** Public, without a [frontendUrl]. *)
Definition guideline_d : dict :=
  [("title", VStr "D"); ("isLoginOnly", VBool false);
   ("isRedirectedExternally", VBool false)].

(** One page with the four guidelines, announced as the only page. *)
Definition upstream_one_page (offset : Z) : page_response :=
  JsonBody (VDict [("guidelines",
                    VList [VDict guideline_a; VDict guideline_b;
                           VDict guideline_c; VDict guideline_d]);
                   ("pagination", VDict [("totalPages", VInt 1)])]).

(** A detail page on which neither marker shows up before the timeout. *)
Definition env_timeout : capture_env := {|
  uuid8 := "0a1b2c3d";
  chrome_starts := true;
  page_loads := true;
  content_marker := false;
  pdf_link := None;
  print_page := None;
  print_fs := FsOk;
  requests_get := λ _, None;
  download_fs := FsOk
|}.

Definition unit_timeout : unit_env :=
  {| capture := env_timeout; csv_write := WriteOk |}.

Definition unit_printed : unit_env :=
  {| capture := env_content_page; csv_write := WriteOk |}.

(** A run in which the first unit's page times out and the others print;
    the pool completes the second unit first. *)
Definition example_run : run_env := {|
  create_ok := true;
  upstream := upstream_one_page;
  schedule := [1%nat];
  units := λ i, if Nat.eqb i 0 then unit_timeout else unit_printed
|}.

(** The store after an earlier run that archived [A] and [B]. *)
Definition store_after_first_run : csv_file :=
  Lines (Row CSV_HEADER :: (Row <$> example_rows)).

(** The unit of [A] on a page that times out: a row with an empty
    [pdf_path]. *)
Lemma worker_appends_metadata_on_capture_failure_witness :
  @worker_process_and_save example_runtime unit_timeout guideline_a
    (Lines [Row CSV_HEADER])
  = (Lines [Row CSV_HEADER;
            Row ["A"; ""; "KCE"; ""; ""; ""; "/nl/a"; ""]],
     Ok ()).
Proof.
  destruct (@worker_appends_metadata_on_capture_failure example_runtime
              unit_timeout guideline_a (Lines [Row CSV_HEADER])
              [VStr "A"; VStr ""; VStr "KCE"; VStr ""; VStr ""; VStr ""]
              eq_refl eq_refl) as (Hreturn & _ & Hrow).
  specialize (Hrow eq_refl).
  destruct (@worker_process_and_save example_runtime unit_timeout guideline_a
              (Lines [Row CSV_HEADER])) as [store result].
  simpl in Hreturn, Hrow. rewrite Hreturn, Hrow. reflexivity.
Defined.

(** A run against the store that already holds [A] and [B]. *)
Lemma process_guidelines_idempotent_witness :
  exists_file store_after_first_run = true
  ∧ @main example_runtime 1 example_run store_after_first_run
    = Some (Ok ([], store_after_first_run)).
Proof.
  split; [reflexivity|].
  refine (proj2 (@process_guidelines_idempotent example_runtime 1 example_run
                   store_after_first_run _ [guideline_a; guideline_b; guideline_d]
                   eq_refl eq_refl eq_refl _)).
  intros g Hg Hurl.
  assert (Hload : load_processed_guidelines store_after_first_run
                  = {["/nl/a"; "/nl/b"]}).
  { unfold store_after_first_run. rewrite load_processed_guidelines_rows.
    simpl. set_solver. }
  rewrite Hload.
  destruct Hg as [<-|[<-|[<-|[]]]].
  - exists "/nl/a". split; [reflexivity|set_solver].
  - exists "/nl/b". split; [reflexivity|set_solver].
  - discriminate Hurl.
Defined.

(** The first run on an empty store: [D] has no URL and is not
    dispatched; the unit of [B] lands before the unit of [A]. *)
Definition store_first_run : csv_file :=
  Lines [Row CSV_HEADER;
         Row ["B"; ""; ""; ""; ""; ""; "/nl/b"; "/srv/pdfs/B-0a1b2c3d.pdf"];
         Row ["A"; ""; "KCE"; ""; ""; ""; "/nl/a"; ""]].

Lemma process_guidelines_first_run :
  @process_guidelines example_runtime (schedule example_run) (units example_run)
    [guideline_a; guideline_b; guideline_d] ∅ (Lines [Row CSV_HEADER])
  = Ok ([guideline_a; guideline_b], store_first_run).
Proof. vm_compute. reflexivity. Qed.

(** The first run dispatches [A] and [B], not [D]. *)
Lemma process_guidelines_rows_carry_url_witness :
  @process_guidelines example_runtime (schedule example_run) (units example_run)
    [guideline_a; guideline_b; guideline_d] ∅ (Lines [Row CSV_HEADER])
  = Ok ([guideline_a; guideline_b], store_first_run)
  ∧ ¬ In guideline_d [guideline_a; guideline_b]
  ∧ ∀ g, In g [guideline_a; guideline_b] →
         truthy (frontend_url_of g) = true.
Proof.
  assert (Hrun : @process_guidelines example_runtime (schedule example_run)
                   (units example_run) [guideline_a; guideline_b; guideline_d]
                   ∅ (Lines [Row CSV_HEADER])
                 = Ok ([guideline_a; guideline_b], store_first_run))
    by (vm_compute; reflexivity).
  destruct (@process_guidelines_rows_carry_url example_runtime _ _ _ _ _ _ _ Hrun)
    as (Hdispatched & Hdropped & _).
  split; [exact Hrun|]. split.
  - apply Hdropped. left. reflexivity.
  - intros g Hg. exact (proj2 (Hdispatched g Hg)).
Defined.

(** Two runs of [main] against the same collection: the first creates the
    store and appends the rows of [A] and [B]; the second appends
    nothing. *)
Example main_two_runs :
  @main example_runtime 1 example_run Missing
  = Some (Ok ([guideline_a; guideline_b], store_first_run))
  ∧ @main example_runtime 1 example_run store_first_run
    = Some (Ok ([], store_first_run)).
Proof. split; vm_compute; reflexivity. Qed.

(** A [frontendUrl] that is not a string is never in the set of keys: a
    guideline with such a URL is dispatched again on every run. *)
Example main_numeric_url_dispatched_again :
  let g : dict := [("frontendUrl", VInt 1); ("isLoginOnly", VBool false);
                   ("isRedirectedExternally", VBool false)] in
  let env := {| create_ok := true;
                upstream := λ _, JsonBody (VDict [("guidelines", VList [VDict g]);
                                                  ("pagination", VDict [("totalPages", VInt 1)])]);
                schedule := [];
                units := λ _, unit_timeout |} in
  let row := ["Unknown Title"; ""; ""; ""; ""; ""; "1"; ""] in
  @main example_runtime 1 env (Lines [Row CSV_HEADER; Row row])
  = Some (Ok ([g], Lines [Row CSV_HEADER; Row row; Row row])).
Proof. vm_compute. reflexivity. Qed.

(** *** The earlier filter on concrete guidelines *)

Example legacy_json_dumps :
  @Legacy.json_dumps example_runtime
    (VDict [("title", VStr "a/b"); ("n", VInt (-3)); ("isLoginOnly", VBool false);
            ("tags", VList [VNone; VBool true])])
  = "{" +:+ Legacy.encode_str "title" +:+ ": " +:+ Legacy.encode_str "a/b"
        +:+ ", " +:+ Legacy.encode_str "n" +:+ ": -3, "
        +:+ Legacy.flag_spaced
        +:+ ", " +:+ Legacy.encode_str "tags" +:+ ": [null, true]}".
Proof. reflexivity. Qed.

(** The earlier filter ignores [isRedirectedExternally] and finds the flag
    at any depth: it keeps an externally redirected guideline, and one that
    has the flag only inside a nested object. *)
Example legacy_filter_keeps_redirected_and_nested :
  let redirected :=
    VDict [("isLoginOnly", VBool false); ("isRedirectedExternally", VBool true)] in
  let nested :=
    VDict [("title", VStr "N");
           ("source", VDict [("isLoginOnly", VBool false)])] in
  let login_only := VDict [("isLoginOnly", VBool true)] in
  @Legacy.filter_public_guidelines example_runtime [redirected; nested; login_only]
  = [redirected; nested]
  ∧ filter_public_guidelines [redirected; nested; login_only] = Ok [].
Proof. split; reflexivity. Qed.

(** * Further properties *)

(** ** The store: initialisation, appends and reloads *)

Lemma read_rows_app l1 l2 : ∀ processed_urls,
  read_rows (l1 ++ l2) processed_urls
  = (seen ← read_rows l1 processed_urls; read_rows l2 seen).
Proof.
  induction l1 as [|[row|] l1 IH]; intros S; simpl; [done| |done].
  case_bool_decide; apply IH.
Qed.

(** The reading loop only adds to the set it starts from. *)
Lemma read_rows_grows reader : ∀ processed_urls seen,
  read_rows reader processed_urls = Ok seen → processed_urls ⊆ seen.
Proof.
  induction reader as [|[row|] reader IH]; intros S seen; simpl; [| |done].
  - by intros [= <-].
  - case_bool_decide; intros Hread%IH; set_solver.
Qed.

(** X1: [initialize_csv] leaves an existing file as it is, creates a
    missing one with the header alone, changes nothing when run again on
    its own result, and never changes the set of keys a load returns. *)
Theorem initialize_csv_idempotent create_ok create_again f f' :
  initialize_csv create_ok f = Ok f' →
  initialize_csv create_again f' = Ok f'
  ∧ load_processed_guidelines f' = load_processed_guidelines f
  ∧ (exists_file f = true → f' = f)
  ∧ (exists_file f = false → f' = Lines [Row CSV_HEADER]).
Proof.
  unfold initialize_csv. destruct f as [|ls]; simpl.
  - destruct create_ok; [|done]. intros [= <-]. done.
  - intros [= <-]. done.
Qed.

(** Creating the store on the first run. *)
Lemma initialize_csv_idempotent_witness :
  initialize_csv true Missing = Ok (Lines [Row CSV_HEADER])
  ∧ initialize_csv false (Lines [Row CSV_HEADER]) = Ok (Lines [Row CSV_HEADER]).
Proof.
  split; [reflexivity|].
  exact (proj1 (initialize_csv_idempotent true false Missing
                  (Lines [Row CSV_HEADER]) eq_refl)).
Defined.

Section store_props.
Context `{Runtime}.

(** X2: on a store with the expected header and no corrupt record, a
    successful [append_to_csv] of a row followed by a load gives the keys
    loaded before together with the written text of the row's seventh
    field: what is appended is what the next run skips. *)
Theorem append_to_csv_then_load rows data_row v :
  data_row !! UNIQUE_KEY_COLUMN_INDEX = Some v →
  load_processed_guidelines
    (append_to_csv WriteOk (Lines (Row CSV_HEADER :: (Row <$> rows))) data_row).1
  = load_processed_guidelines (Lines (Row CSV_HEADER :: (Row <$> rows)))
    ∪ {[ csv_field v ]}.
Proof.
  intros Hv. rewrite append_to_csv_result. simpl fst.
  change (file_append (Lines (Row CSV_HEADER :: (Row <$> rows)))
            (csv_field <$> data_row))
    with (Lines (Row CSV_HEADER :: ((Row <$> rows) ++ [Row (csv_field <$> data_row)]))).
  replace ((Row <$> rows) ++ [Row (csv_field <$> data_row)])
    with (Row <$> (rows ++ [csv_field <$> data_row]))
    by (by rewrite fmap_app).
  rewrite !load_processed_guidelines_rows, omap_app, list_to_set_app_L.
  f_equal. simpl. unfold row_key. rewrite list_lookup_fmap, Hv. simpl.
  set_solver.
Qed.

(** X3: an [append_to_csv], whatever its outcome and whatever the state
    of the file, never removes a key from what a load returns. *)
Theorem append_to_csv_keeps_keys o f data_row :
  load_processed_guidelines f
  ⊆ load_processed_guidelines (append_to_csv o f data_row).1.
Proof.
  rewrite append_to_csv_result. simpl fst.
  destruct o; [|done|done].
  destruct f as [|ls]; [set_solver|].
  unfold load_processed_guidelines. simpl.
  destruct ls as [|[header|] reader]; simpl; [set_solver| |set_solver].
  destruct (bool_decide (header = []) || negb (bool_decide (header = CSV_HEADER)));
    [set_solver|].
  rewrite read_rows_app.
  destruct (read_rows reader ∅) as [seen|e]; simpl; [|set_solver].
  case_bool_decide; set_solver.
Qed.

(** X4: [append_to_csv] writes no header: a row appended to a missing
    file becomes the first record of a new file, and the next load, which
    takes the first record for the header, returns no key at all. *)
Theorem append_to_csv_missing_file data_row :
  (append_to_csv WriteOk Missing data_row).1 = Lines [Row (csv_field <$> data_row)]
  ∧ load_processed_guidelines (append_to_csv WriteOk Missing data_row).1 = ∅.
Proof.
  rewrite append_to_csv_result. split; [done|].
  unfold load_processed_guidelines. simpl.
  by destruct (bool_decide (csv_field <$> data_row = [])
               || negb (bool_decide (csv_field <$> data_row = CSV_HEADER))).
Qed.

End store_props.

(** A row for [C] appended to the store of [A] and [B]. *)
Lemma append_to_csv_then_load_witness :
  load_processed_guidelines
    (@append_to_csv example_runtime WriteOk
       (Lines (Row CSV_HEADER :: (Row <$> example_rows)))
       [VStr "C"; VNone; VStr ""; VStr ""; VStr ""; VStr ""; VStr "/nl/c";
        VStr ""]).1
  = load_processed_guidelines (Lines (Row CSV_HEADER :: (Row <$> example_rows)))
    ∪ {[ "/nl/c" ]}.
Proof.
  exact (@append_to_csv_then_load example_runtime example_rows
           [VStr "C"; VNone; VStr ""; VStr ""; VStr ""; VStr ""; VStr "/nl/c";
            VStr ""] (VStr "/nl/c") eq_refl).
Defined.

(** ** The worker unit and the pool *)

Section unit_props.
Context `{Runtime}.

(** The record a unit adds to the file, when it adds one: the extraction
    has returned and the write succeeds. *)
Definition unit_row (u : unit_env * dict) : option (list string) :=
  match extract_guideline_data u.2, csv_write u.1 with
  | Ok result_data, WriteOk =>
      Some (csv_field <$> result_data
                          ++ [frontend_url_of u.2; VStr (unit_pdf_path u.1 u.2)])
  | _, _ => None
  end.

Lemma worker_unit_row u f :
  (worker_process_and_save u.1 u.2 f).1
  = from_option (file_append f) f (unit_row u).
Proof.
  rewrite worker_process_and_save_result. unfold unit_row. simpl.
  destruct (extract_guideline_data u.2); [|done]. by destruct (csv_write u.1).
Qed.

Lemma file_append_changes f row : file_append f row ≠ f.
Proof.
  destruct f as [|ls]; simpl; [done|]. intros [= Heq].
  apply (f_equal length) in Heq. rewrite length_app in Heq. simpl in Heq. lia.
Qed.

(** X5: a unit always returns normally, and it leaves the file exactly as
    it was if and only if the extraction raised or the write of the row
    failed; in every other case the file grows by one record. *)
Theorem worker_drops_item_iff env g f :
  (worker_process_and_save env g f).2 = Ok ()
  ∧ ((worker_process_and_save env g f).1 = f ↔
     (∃ e, extract_guideline_data g = Raise e) ∨ csv_write env ≠ WriteOk)
  ∧ ((worker_process_and_save env g f).1 ≠ f →
     ∃ row, (worker_process_and_save env g f).1 = file_append f row).
Proof.
  rewrite worker_process_and_save_result. simpl.
  destruct (extract_guideline_data g) as [result_data|e].
  - destruct (csv_write env).
    + split; [done|]. split; [|eauto]. split.
      * intros Heq. by apply file_append_changes in Heq.
      * intros [[e [=]]|Hneq]; done.
    + split; [done|]. split; [|done]. split; [right; done|done].
    + split; [done|]. split; [|done]. split; [right; done|done].
  - split; [done|]. split; [|done]. split; [left; eauto|done].
Qed.

(** X6: when a unit's row lands, its [pdf_path] column is filled exactly
    when the guideline has a truthy [frontendUrl] and the capture
    succeeded, and it then holds the archiver's output path. *)
Theorem worker_row_pdf_path env g f result_data :
  extract_guideline_data g = Ok result_data →
  csv_write env = WriteOk →
  ∃ row,
    (worker_process_and_save env g f).1 = file_append f row
    ∧ length row = 8%nat
    ∧ row !! 7%nat = Some (unit_pdf_path env g)
    ∧ (unit_pdf_path env g ≠ "" ↔
       truthy (frontend_url_of g) = true
       ∧ capture_succeeds (capture env) = true)
    ∧ (unit_pdf_path env g ≠ "" →
       unit_pdf_path env g = pdf_path_of (capture env) (title_of g)).
Proof.
  intros Hextract Hwrite.
  rewrite worker_process_and_save_result, Hextract, Hwrite. simpl.
  pose proof (extract_guideline_data_length _ _ Hextract) as Hlen.
  eexists. split; [done|].
  split; [by rewrite length_fmap, length_app, Hlen|].
  split.
  { rewrite list_lookup_fmap, lookup_app_r by (rewrite Hlen; lia).
    by rewrite Hlen. }
  unfold unit_pdf_path.
  pose proof (pdf_path_of_nonempty (capture env) (title_of g)) as Hpath.
  destruct (truthy (frontend_url_of g)), (capture_succeeds (capture env));
    (split; [split|]); try done; intuition congruence.
Qed.

(** Appending a list of records one after the other. *)
Lemma foldl_file_append_lines ls rows :
  foldl file_append (Lines ls) rows = Lines (ls ++ (Row <$> rows)).
Proof.
  revert ls. induction rows as [|row rows IH]; intros ls; simpl.
  - by rewrite app_nil_r.
  - rewrite IH. by rewrite <- app_assoc.
Qed.

(** The units of a pool completing in submission order. *)
Lemma pool_in_order_rows pending : ∀ f,
  foldl (λ f u, (worker_process_and_save u.1 u.2 f).1) f pending
  = foldl file_append f (omap unit_row pending).
Proof.
  induction pending as [|u pending IH]; intros f; simpl; [done|].
  rewrite worker_unit_row, IH.
  change (omap unit_row (u :: pending))
    with (from_option (λ row, row :: omap unit_row pending)
            (omap unit_row pending) (unit_row u)).
  by destruct (unit_row u).
Qed.

Lemma omap_cons_unit_row u pending :
  omap unit_row (u :: pending)
  = from_option (λ row, row :: omap unit_row pending) (omap unit_row pending)
      (unit_row u).
Proof. reflexivity. Qed.

(** Whatever the schedule, the pool appends the records of its units,
    each once, in some order. *)
Lemma pool_run_permutation schedule : ∀ pending f,
  ∃ rows, pool_run schedule pending f = foldl file_append f rows
          ∧ rows ≡ₚ omap unit_row pending.
Proof.
  induction schedule as [|i schedule IH]; intros pending f; simpl.
  - exists (omap unit_row pending). by rewrite pool_in_order_rows.
  - destruct (pending !! (i mod length pending)%nat) as [u|] eqn:Hu.
    2:{ apply lookup_ge_None in Hu. destruct pending as [|u pending].
        - by exists [].
        - pose proof (Nat.mod_upper_bound i (length (u :: pending))
                        ltac:(simpl; lia)). lia. }
    pose proof (delete_Permutation _ _ _ Hu) as Hperm.
    rewrite worker_unit_row.
    destruct (IH (delete (i mod length pending)%nat pending)
                (from_option (file_append f) f (unit_row u)))
      as (rows & -> & Hrows).
    apply (omap_Permutation unit_row) in Hperm.
    rewrite omap_cons_unit_row in Hperm.
    destruct (unit_row u) as [row|]; simpl in *.
    + exists (row :: rows). split; [done|]. by rewrite Hperm, Hrows.
    + exists rows. split; [done|]. by rewrite Hperm.
Qed.

End unit_props.

(** ** The orchestrator: what is dispatched, and what a second run sees *)

(** Whether the [frontendUrl] of a guideline is in the processed set. *)
Definition url_seen (processed_urls : gset string) (g : dict) : bool :=
  match frontend_url_of g with
  | VStr u => bool_decide (u ∈ processed_urls)
  | _ => false
  end.

(** The guidelines [process_guidelines] hands to the pool. *)
Definition to_dispatch (processed_urls : gset string) (g : dict) : bool :=
  truthy (frontend_url_of g) && negb (url_seen processed_urls g).

(** A [frontendUrl] that is a non-empty list or object: truthy, and not
    hashable. *)
Definition unhashable_url (g : dict) : bool :=
  match frontend_url_of g with
  | VList (_ :: _) | VDict (_ :: _) => true
  | _ => false
  end.

Section orchestrator_props.
Context `{Runtime}.

Lemma omap_length_le {A B} (f : A → option B) (l : list A) :
  (length (omap f l) ≤ length l)%nat.
Proof.
  induction l as [|x l IH]; [done|].
  change (omap f (x :: l))
    with (from_option (λ y, y :: omap f l) (omap f l) (f x)).
  destruct (f x); simpl; lia.
Qed.

Lemma select_unprocessed_exact public processed : ∀ acc,
  existsb unhashable_url public = false →
  select_unprocessed public processed acc
  = Ok (acc ++ List.filter (to_dispatch processed) public).
Proof.
  induction public as [|g public IH]; intros acc; simpl.
  - by rewrite app_nil_r.
  - intros [Hg Hrest]%orb_false_iff. fold (frontend_url_of g).
    unfold to_dispatch, url_seen, unhashable_url in *.
    destruct (frontend_url_of g) as [ |[]|n|x|u|[|v l]|[|kv d]]; simpl in *;
      try done; try (by apply IH);
      try (rewrite IH by done; by rewrite <- app_assoc).
    + destruct (Z.eqb n 0); simpl; [by apply IH|].
      rewrite IH by done. by rewrite <- app_assoc.
    + destruct (float_truthy x); simpl; [|by apply IH].
      rewrite IH by done. by rewrite <- app_assoc.
    + destruct (String.eqb u ""); simpl; [by apply IH|].
      destruct (bool_decide (u ∈ processed)); simpl; [by apply IH|].
      rewrite IH by done. by rewrite <- app_assoc.
Qed.

Lemma select_unprocessed_raises public processed : ∀ acc,
  existsb unhashable_url public = true →
  select_unprocessed public processed acc = Raise TypeError.
Proof.
  induction public as [|g public IH]; intros acc; simpl; [done|].
  fold (frontend_url_of g). unfold unhashable_url at 1.
  destruct (frontend_url_of g) as [ |[]|n|x|u|[|v l]|[|kv d]]; simpl;
    try done; try (by apply IH).
  - destruct (Z.eqb n 0); simpl; by apply IH.
  - destruct (float_truthy x); simpl; by apply IH.
  - destruct (String.eqb u ""); simpl; [by apply IH|].
    destruct (bool_decide (u ∈ processed)); simpl; by apply IH.
Qed.

(** X7: when no guideline has a non-empty list or object for its
    [frontendUrl], [process_guidelines] returns and dispatches exactly the
    guidelines whose [frontendUrl] is truthy and not a member of the
    processed set, in the order of the input and with repetitions kept:
    two guidelines with the same new URL are both dispatched. *)
Theorem process_guidelines_dispatches_filter schedule envs public processed f :
  existsb unhashable_url public = false →
  ∃ f', process_guidelines schedule envs public processed f
        = Ok (List.filter (to_dispatch processed) public, f').
Proof.
  intros Hhashable. unfold process_guidelines.
  rewrite select_unprocessed_exact by done. simpl.
  destruct (List.filter (to_dispatch processed) public) as [|g l]; simpl;
    by eexists.
Qed.

(** X8: [process_guidelines] raises exactly when some guideline has a
    non-empty list or object for its [frontendUrl]; the exception is the
    [TypeError] of the membership test, raised while the list of work is
    built, before any unit runs. *)
Theorem process_guidelines_raises_iff schedule envs public processed f e :
  process_guidelines schedule envs public processed f = Raise e
  ↔ e = TypeError ∧ existsb unhashable_url public = true.
Proof.
  unfold process_guidelines.
  destruct (existsb unhashable_url public) eqn:Hex.
  - rewrite select_unprocessed_raises by done. simpl.
    split; [by intros [= <-]|by intros [-> _]].
  - rewrite select_unprocessed_exact by done. simpl.
    destruct (Nat.eqb _ 0); split; try done; by intros [_ ?].
Qed.

(** X9: whatever the schedule of the pool, the file after
    [process_guidelines] is the file before followed by the records of
    the dispatched units, each once, in some order: at most one record
    per dispatched guideline, and no existing record changed; the
    schedule that follows the submission order appends them in that
    order. *)
Theorem process_guidelines_schedule_independent schedule envs public processed
    f l f' :
  process_guidelines schedule envs public processed f = Ok (l, f') →
  ∃ rows,
    f' = foldl file_append f rows
    ∧ rows ≡ₚ omap unit_row (imap (λ i g, (envs i, g)) l)
    ∧ (length rows ≤ length l)%nat
    ∧ process_guidelines [] envs public processed f
      = Ok (l, foldl file_append f (omap unit_row (imap (λ i g, (envs i, g)) l))).
Proof.
  unfold process_guidelines.
  destruct (select_unprocessed public processed []) as [todo|e]; [|done].
  simpl. destruct (Nat.eqb (length todo) 0) eqn:Hlen.
  - intros [= <- <-]. exists []. done.
  - intros [= <- <-].
    destruct (pool_run_permutation schedule (imap (λ i g, (envs i, g)) todo) f)
      as (rows & -> & Hrows).
    exists rows. split; [done|]. split; [done|]. split.
    + rewrite Hrows. etrans; [apply omap_length_le|]. by rewrite length_imap.
    + simpl. by rewrite pool_in_order_rows.
Qed.

End orchestrator_props.

Section second_run.
Context `{Runtime}.

(** The record of a unit whose extraction returns and whose write
    succeeds carries the written [frontendUrl] as its key. *)
Lemma unit_row_key env g result_data :
  extract_guideline_data g = Ok result_data →
  csv_write env = WriteOk →
  ∃ row, unit_row (env, g) = Some row
         ∧ row_key row = Some (csv_field (frontend_url_of g)).
Proof.
  intros Hextract Hwrite. unfold unit_row. simpl. rewrite Hextract, Hwrite.
  eexists. split; [done|].
  pose proof (extract_guideline_data_length _ _ Hextract) as Hlen.
  unfold row_key.
  rewrite list_lookup_fmap, lookup_app_r by (rewrite Hlen; done).
  by rewrite Hlen.
Qed.

(** A run that returns: the work list the selection built, and the
    records the pool appended. *)
Lemma process_guidelines_run schedule envs public processed f l f' :
  process_guidelines schedule envs public processed f = Ok (l, f') →
  select_unprocessed public processed [] = Ok l
  ∧ ∃ rows, f' = foldl file_append f rows
            ∧ rows ≡ₚ omap unit_row (imap (λ i g, (envs i, g)) l).
Proof.
  unfold process_guidelines.
  destruct (select_unprocessed public processed []) as [todo|e]; [|done].
  simpl. destruct (Nat.eqb (length todo) 0) eqn:Hlen.
  - intros [= <- <-]. apply Nat.eqb_eq, nil_length_inv in Hlen as ->.
    split; [done|]. by exists [].
  - intros [= <- <-]. split; [done|]. apply pool_run_permutation.
Qed.

(** X10: two runs over the same guidelines. On a store with the expected
    header and no corrupt record, when every truthy [frontendUrl] is a
    string, every extraction returns and every write of the first run
    succeeds, a second [process_guidelines] that starts from the keys
    loaded from the store the first one left dispatches nothing and
    leaves that store unchanged, whatever the schedules were. *)
Theorem process_guidelines_second_run schedule envs schedule' envs' public
    rows0 l f' :
  (∀ g, In g public → truthy (frontend_url_of g) = true →
        ∃ u, frontend_url_of g = VStr u) →
  (∀ g, In g public → ∃ result_data, extract_guideline_data g = Ok result_data) →
  (∀ i, csv_write (envs i) = WriteOk) →
  process_guidelines schedule envs public
    (load_processed_guidelines (Lines (Row CSV_HEADER :: (Row <$> rows0))))
    (Lines (Row CSV_HEADER :: (Row <$> rows0)))
  = Ok (l, f') →
  process_guidelines schedule' envs' public (load_processed_guidelines f') f'
  = Ok ([], f').
Proof.
  intros Hstr Hextract Hwrite Hfirst.
  assert (Hhashable : existsb unhashable_url public = false).
  { apply not_true_is_false. intros (g & Hg & Hun)%existsb_exists.
    unfold unhashable_url in Hun.
    destruct (frontend_url_of g) as [ | | | | |[|v vs]|[|kv d]] eqn:Hurl;
      try done; destruct (Hstr g Hg) as [u Hu]; rewrite ?Hurl; try done;
      by rewrite Hurl in Hu. }
  destruct (process_guidelines_run _ _ _ _ _ _ _ Hfirst)
    as (Hsel & rows & -> & Hrows).
  rewrite select_unprocessed_exact in Hsel by done.
  injection Hsel as Hl. symmetry in Hl. simpl in Hl.
  rewrite foldl_file_append_lines.
  change (Row CSV_HEADER :: (Row <$> rows0)) with ([Row CSV_HEADER] ++ (Row <$> rows0)).
  rewrite <- app_assoc, <- fmap_app. simpl app.
  unfold process_guidelines.
  rewrite select_unprocessed_all_seen; [done|].
  intros g Hg Hurl. destruct (Hstr g Hg Hurl) as [u Hu].
  exists u. split; [done|].
  rewrite load_processed_guidelines_rows, omap_app, list_to_set_app_L.
  destruct (decide (u ∈ load_processed_guidelines
                          (Lines (Row CSV_HEADER :: (Row <$> rows0))))) as [Hin|Hnew].
  { rewrite load_processed_guidelines_rows in Hin. set_solver. }
  assert (Hdisp : In g l).
  { rewrite Hl. apply filter_In. split; [done|].
    unfold to_dispatch, url_seen. rewrite Hurl, Hu. simpl.
    by rewrite bool_decide_false. }
  apply list_elem_of_In, list_elem_of_lookup in Hdisp as [i Hi].
  destruct (Hextract g Hg) as [result_data Hres].
  destruct (unit_row_key (envs i) g result_data Hres (Hwrite i))
    as (row & Hrow & Hkey).
  rewrite Hu in Hkey. simpl in Hkey.
  assert (Hin : row ∈ rows).
  { rewrite Hrows. apply list_elem_of_omap. exists (envs i, g).
    split; [|done]. by apply (elem_of_lookup_imap_2 (λ i g, (envs i, g))). }
  apply elem_of_union_r, elem_of_list_to_set, list_elem_of_omap.
  by exists row.
Qed.

End second_run.

(** *** The further properties on the concrete collection *)

(** The unit of [A] on a page that prints. *)
Lemma worker_row_pdf_path_witness :
  ∃ row,
    (@worker_process_and_save example_runtime unit_printed guideline_a
       (Lines [Row CSV_HEADER])).1
    = file_append (Lines [Row CSV_HEADER]) row
    ∧ row !! 7%nat = Some "/srv/pdfs/A-0a1b2c3d.pdf".
Proof.
  destruct (@worker_row_pdf_path example_runtime unit_printed guideline_a
              (Lines [Row CSV_HEADER])
              [VStr "A"; VStr ""; VStr "KCE"; VStr ""; VStr ""; VStr ""]
              eq_refl eq_refl) as (row & Hrow & _ & Hpdf & _).
  exists row. split; [exact Hrow | exact Hpdf].
Defined.

(** With [/nl/b] processed, only [A] is dispatched. *)
Lemma process_guidelines_dispatches_filter_witness :
  existsb unhashable_url [guideline_a; guideline_b; guideline_d] = false
  ∧ ∃ f', @process_guidelines example_runtime [] (λ _, unit_timeout)
            [guideline_a; guideline_b; guideline_d] {["/nl/b"]}
            (Lines [Row CSV_HEADER])
          = Ok (List.filter (to_dispatch {["/nl/b"]})
                  [guideline_a; guideline_b; guideline_d], f').
Proof.
  split; [reflexivity|].
  exact (@process_guidelines_dispatches_filter example_runtime []
           (λ _, unit_timeout) [guideline_a; guideline_b; guideline_d]
           {["/nl/b"]} (Lines [Row CSV_HEADER]) eq_refl).
Defined.

(** The first run under the schedule that lets [B] land first. *)
Lemma process_guidelines_schedule_independent_witness :
  ∃ rows,
    store_first_run = foldl file_append (Lines [Row CSV_HEADER]) rows
    ∧ (length rows ≤ 2)%nat.
Proof.
  assert (Hrun : @process_guidelines example_runtime (schedule example_run)
                   (units example_run) [guideline_a; guideline_b; guideline_d]
                   ∅ (Lines [Row CSV_HEADER])
                 = Ok ([guideline_a; guideline_b], store_first_run))
    by (vm_compute; reflexivity).
  destruct (@process_guidelines_schedule_independent example_runtime
              _ _ _ _ _ _ _ Hrun) as (rows & Hstore & _ & Hlen & _).
  exists rows. split; [exact Hstore | exact Hlen].
Defined.

(** The second run after that first run. *)
Lemma process_guidelines_second_run_witness :
  @process_guidelines example_runtime [] (λ _, unit_timeout)
    [guideline_a; guideline_b; guideline_d]
    (load_processed_guidelines store_first_run) store_first_run
  = Ok ([], store_first_run).
Proof.
  apply (@process_guidelines_second_run example_runtime (schedule example_run)
           (units example_run) [] (λ _, unit_timeout)
           [guideline_a; guideline_b; guideline_d] []
           [guideline_a; guideline_b]).
  - intros g [<-|[<-|[<-|[]]]] Hurl.
    + by exists "/nl/a".
    + by exists "/nl/b".
    + discriminate Hurl.
  - intros g [<-|[<-|[<-|[]]]]; eexists; reflexivity.
  - intros i. simpl. by destruct (Nat.eqb i 0).
  - vm_compute. reflexivity.
Defined.

(** ** The archiver: what is written, and what is left untouched *)

(** The completed writes of a trace, in order. *)
Definition writes (t : list event) : list (string * list byte) :=
  omap (λ ev, match ev with
              | EWrite path data => Some (path, data)
              | _ => None
              end) t.

(** The events of the session itself, as opposed to those of the two
    strategies. *)
Definition session_event (url : string) (ev : event) : Prop :=
  ev = EChrome ∨ ev = EDriverGet url ∨ ev = EWait ∨ ev = EQuit.

Section archiver_writes.
Context `{Runtime}.

(** The bytes a call leaves in its output file: those of the print when
    the content marker is there and the print succeeds, else those of the
    linked resource when the download succeeds. *)
Definition captured (env : capture_env) : option (list byte) :=
  if chrome_starts env && page_loads env then
    match (if content_marker env then print_data env else None) with
    | Some data => Some data
    | None => download_data env
    end
  else None.

Lemma writes_unfinished p t : Forall (unfinished p) t → writes t = [].
Proof.
  induction 1 as [|ev t [->|[href ->]] _ IH]; simpl; done.
Qed.

Lemma writes_app t1 t2 : writes (t1 ++ t2) = writes t1 ++ writes t2.
Proof. apply omap_app. Qed.

Lemma writes_write path data t :
  writes (EWrite path data :: t) = (path, data) :: writes t.
Proof. reflexivity. Qed.

Lemma writes_skip ev t :
  (∀ path data, ev ≠ EWrite path data) → writes (ev :: t) = writes t.
Proof. intros Hev. destruct ev; try done. by destruct (Hev path data). Qed.

#[local] Arguments writes : simpl never.

(** Both helpers by cases, rewritten to their traces. *)
Local Ltac both_helpers env p :=
  let Hpr := fresh "Hpr" in
  let Hdl := fresh "Hdl" in
  pose proof (print_helper_spec env p) as Hpr;
  pose proof (download_helper_spec env p) as Hdl;
  destruct (print_data env) as [data|] eqn:Hpd;
    [|destruct Hpr as (tp & ep & Hpr & Htp)];
  (destruct (download_data env) as [body|] eqn:Hdd;
    [destruct Hdl as (href & Hlink & Hne & Hget & Hdl)
    |destruct Hdl as (td & ed & Hdl & Htd)]);
  rewrite Hpr, Hdl.

(** X11: a call of [save_guideline_pdf] completes at most one write; it
    returns its output path exactly when it completed one, and that write
    went to the returned path with the printed bytes (content marker
    present and print succeeded) or else the body of the linked resource;
    when it returns the empty string it completed no write. *)
Theorem save_guideline_pdf_writes env url name :
  let r := save_guideline_pdf env url name in
  match captured env with
  | Some data =>
      writes (trace r) = [(pdf_path_of env name, data)]
      ∧ outcome r = Ok (pdf_path_of env name)
  | None => writes (trace r) = [] ∧ outcome r = Ok ""
  end.
Proof.
  intros r. subst r. unfold captured.
  rewrite save_guideline_pdf_stages. cbv zeta.
  rewrite capture_strategies_branches. cbv zeta.
  destruct (chrome_starts env), (page_loads env); try done.
  both_helpers env (pdf_path_of env name); rewrite ?Hlink;
    destruct (content_marker env); simpl;
    try (destruct (bool_decide (is_Some (pdf_link env))); simpl);
    repeat (rewrite writes_app
            || rewrite writes_write
            || (rewrite writes_skip by done)
            || (rewrite (writes_unfinished _ _ Htp))
            || (rewrite (writes_unfinished _ _ Htd)));
    done.
Qed.

(** X12: unless the session started, the page loaded and one of the two
    markers showed up before the timeout, a call returns the empty string
    having done nothing but start the session, load the page, wait and
    quit: no element lookup, no print, no request, no file opened. *)
Theorem save_guideline_pdf_gives_up_early env url name :
  chrome_starts env && page_loads env
  && (content_marker env || bool_decide (is_Some (pdf_link env))) = false →
  outcome (save_guideline_pdf env url name) = Ok ""
  ∧ Forall (session_event url) (trace (save_guideline_pdf env url name)).
Proof.
  rewrite save_guideline_pdf_stages. cbv zeta. unfold session_event.
  destruct (chrome_starts env), (page_loads env),
    (content_marker env || bool_decide (is_Some (pdf_link env)));
    simpl; try done; intros _; (split; [done|]);
    repeat apply Forall_cons_2; try apply Forall_nil_2; tauto.
Qed.

(** The link is missing, or has no [href], or an empty one. *)
Definition no_href (env : capture_env) : bool :=
  match pdf_link env with
  | Some (Some href) => String.eqb href ""
  | _ => true
  end.

(** The download cannot get as far as the file: no usable [href], a
    request that raises, or a response whose status check fails. *)
Definition download_refused (env : capture_env) : bool :=
  no_href env
  || match pdf_link env with
     | Some (Some href) =>
         match requests_get env href with
         | Some (true, _) => false
         | _ => true
         end
     | _ => true
     end.

(** X13: on a page without the content marker, when the link has no
    usable [href], or the request raises, or the response fails the
    status check, the call returns the empty string and never opens the
    output file; without a usable [href] it sends no request either. *)
Theorem save_guideline_pdf_download_refused env url name :
  content_marker env = false →
  download_refused env = true →
  let r := save_guideline_pdf env url name in
  outcome r = Ok ""
  ∧ (∀ path, ¬ In (EOpen path) (trace r))
  ∧ writes (trace r) = []
  ∧ (no_href env = true → ∀ href, ¬ In (ERequestsGet href) (trace r)).
Proof.
  intros Hm Hrefused r. subst r.
  rewrite save_guideline_pdf_stages. cbv zeta.
  rewrite capture_strategies_branches. cbv zeta. rewrite Hm.
  unfold download_refused, no_href in *.
  unfold _download_linked_pdf, open_wb, f_write, try_except, call, throw,
    mbind, io_bind, mret, io_ret.
  destruct (chrome_starts env), (page_loads env);
    try (simpl; repeat split; try intros ?; try intros ?; intuition congruence).
  destruct (pdf_link env) as [[[|c href]|]|]; simpl in *;
    try (repeat split; try intros ?; try intros ?; intuition congruence).
  destruct (requests_get env (String c href)) as [[[] body]|]; simpl in *;
    try done;
    repeat split; try intros ?; try intros ?; intuition congruence.
Qed.

End archiver_writes.

(** ** The fetcher: where the pagination stops *)

(** Page [k] is the first page on which the loop does not continue. *)
Definition first_stop (upstream : Z → page_response) (k : nat) : Prop :=
  (1 ≤ k)%nat
  ∧ (∀ i, (1 ≤ i < k)%nat →
          page_exit (Z.of_nat i) (upstream (Z.of_nat i)) = Ok Continue)
  ∧ page_exit (Z.of_nat k) (upstream (Z.of_nat k)) ≠ Ok Continue.

Lemma fetch_loop_inv upstream : ∀ fuel offset acc l,
  fetch_loop fuel upstream offset acc = Some l →
  ∃ n, (n < fuel)%nat
       ∧ (∀ i, (i < n)%nat →
               page_exit (offset + Z.of_nat i) (upstream (offset + Z.of_nat i))
               = Ok Continue)
       ∧ page_exit (offset + Z.of_nat n) (upstream (offset + Z.of_nat n))
         ≠ Ok Continue
       ∧ l = acc ++ flat_map (λ i, page_items (upstream (offset + Z.of_nat i)))
                             (seq 0 (S n)).
Proof.
  induction fuel as [|fuel IH]; intros offset acc l; simpl; [done|].
  rewrite fetch_page_acc.
  destruct (page_exit offset (upstream offset)) as [[]|e] eqn:Hexit.
  - intros (n & Hn & Hcont & Hstop & ->)%IH. exists (S n).
    split; [lia|]. split; [|split].
    + intros [|i] Hi; [by rewrite Z.add_0_r|].
      replace (offset + Z.of_nat (S i)) with (offset + 1 + Z.of_nat i) by lia.
      apply Hcont. lia.
    + by replace (offset + Z.of_nat (S n)) with (offset + 1 + Z.of_nat n) by lia.
    + rewrite <- app_assoc. f_equal.
      rewrite flat_map_seq_shift. simpl Z.of_nat. rewrite Z.add_0_r. f_equal.
      apply flat_map_ext. intros i. f_equal. f_equal. lia.
  - intros [= <-]. exists 0%nat. simpl. rewrite !Z.add_0_r, app_nil_r, Hexit.
    split; [lia|]. split; [|done]. intros i Hi. lia.
  - intros [= <-]. exists 0%nat. simpl. rewrite !Z.add_0_r, app_nil_r, Hexit.
    split; [lia|]. split; [|done]. intros i Hi. lia.
Qed.

Lemma flat_map_pages_from_one upstream n :
  flat_map (λ i, page_items (upstream (1 + Z.of_nat i))) (seq 0 n)
  = pages_upto upstream n.
Proof.
  unfold pages_upto. rewrite flat_map_seq_shift.
  apply flat_map_ext. intros i. f_equal. f_equal. lia.
Qed.

(** X14: the fetch returns a list exactly when, within the iterations it
    is given, it meets a first page on which the loop does not continue
    (an empty page, the announced last page, or an exception); the list is
    then the guidelines of the pages from 1 up to that page, in order,
    each page once. *)
Theorem fetch_all_guidelines_result upstream fuel l :
  fetch_all_guidelines fuel upstream = Some l
  ↔ ∃ k, first_stop upstream k ∧ (k ≤ fuel)%nat ∧ l = pages_upto upstream k.
Proof.
  unfold fetch_all_guidelines, first_stop. split.
  - intros (n & Hn & Hcont & Hstop & ->)%fetch_loop_inv. exists (S n).
    replace (Z.of_nat (S n)) with (1 + Z.of_nat n) by lia.
    split; [split; [lia|split; [|done]]|split; [lia|]].
    + intros [|i] Hi; [lia|].
      replace (Z.of_nat (S i)) with (1 + Z.of_nat i) by lia. apply Hcont. lia.
    + by rewrite app_nil_l, flat_map_pages_from_one.
  - intros ([|n] & (Hk & Hcont & Hstop) & Hfuel & ->); [lia|].
    rewrite (fetch_loop_reaches upstream n); [| | |lia].
    + by rewrite app_nil_l, flat_map_pages_from_one.
    + intros i Hi. specialize (Hcont (S i) ltac:(lia)).
      by replace (1 + Z.of_nat i) with (Z.of_nat (S i)) by lia.
    + by replace (1 + Z.of_nat n) with (Z.of_nat (S n)) by lia.
Qed.

(** X15: when every page continues the loop (the upstream never returns
    an empty page, never fails, and never announces a last page that is
    reached), the fetch does not return, however many iterations it is
    given: the loop has no bound of its own. *)
Theorem fetch_all_guidelines_unbounded upstream :
  (∀ i, (1 ≤ i)%nat →
        page_exit (Z.of_nat i) (upstream (Z.of_nat i)) = Ok Continue) →
  ∀ fuel, fetch_all_guidelines fuel upstream = None.
Proof.
  intros Hcont fuel. unfold fetch_all_guidelines.
  destruct (fetch_loop fuel upstream 1 []) as [l|] eqn:Hloop; [|done].
  apply fetch_loop_inv in Hloop as (n & _ & _ & Hstop & _).
  destruct Hstop.
  replace (1 + Z.of_nat n) with (Z.of_nat (S n)) by lia. apply Hcont. lia.
Qed.

Lemma fetch_all_guidelines_first_stop upstream k fuel :
  first_stop upstream k → (k ≤ fuel)%nat →
  fetch_all_guidelines fuel upstream = Some (pages_upto upstream k).
Proof.
  intros (Hk & Hcont & Hstop) Hfuel. unfold fetch_all_guidelines.
  destruct k as [|n]; [lia|].
  rewrite (fetch_loop_reaches upstream n); [| | |lia].
  - by rewrite app_nil_l, flat_map_pages_from_one.
  - intros i Hi. specialize (Hcont (S i) ltac:(lia)).
    by replace (1 + Z.of_nat i) with (Z.of_nat (S i)) by lia.
  - by replace (1 + Z.of_nat n) with (Z.of_nat (S n)) by lia.
Qed.

(** An upstream that holds the pages [pages]: page [i] carries the [i]-th
    list (an empty list past the last), and, when [announce] is set, the
    number of pages as [pagination.totalPages]. *)
Definition serve_pages (announce : bool) (pages : list (list value))
    (offset : Z) : page_response :=
  JsonBody
    (VDict (("guidelines", VList (nth (Z.to_nat offset - 1) pages []))
            :: if announce
               then [("pagination",
                      VDict [("totalPages", VInt (Z.of_nat (length pages)))])]
               else [])).

Lemma page_items_serve_pages announce pages offset :
  page_items (serve_pages announce pages offset)
  = nth (Z.to_nat offset - 1) pages [].
Proof.
  unfold page_items, serve_pages. simpl.
  by destruct (nth (Z.to_nat offset - 1) pages []).
Qed.

Lemma flat_map_nth_concat {A} (pages : list (list A)) :
  flat_map (λ i, nth i pages []) (seq 0 (length pages)) = concat pages.
Proof.
  induction pages as [|p pages IH]; [done|].
  simpl length. rewrite flat_map_seq_S. simpl. by rewrite IH.
Qed.

Lemma pages_upto_serve_pages announce pages :
  pages_upto (serve_pages announce pages) (length pages) = concat pages.
Proof.
  unfold pages_upto. rewrite flat_map_seq_shift, <- flat_map_nth_concat.
  apply flat_map_ext. intros i. rewrite page_items_serve_pages.
  f_equal. lia.
Qed.

Lemma page_exit_serve_pages announce pages (i : nat) :
  (1 ≤ i)%nat →
  nth (i - 1) pages [] ≠ [] →
  page_exit (Z.of_nat i) (serve_pages announce pages (Z.of_nat i))
  = Ok (if announce && bool_decide (length pages ≤ i)%nat then Break
        else Continue).
Proof.
  intros Hi Hpage. unfold page_exit, serve_pages, fetch_page. simpl.
  replace (Z.to_nat (Z.of_nat i) - 1)%nat with (i - 1)%nat by lia.
  destruct (nth (i - 1) pages []) as [|v p] eqn:Hnth; [done|]. simpl.
  destruct announce; simpl; [|done].
  assert (i - 1 < length pages)%nat.
  { destruct (decide (i - 1 < length pages)%nat); [done|].
    rewrite nth_overflow in Hnth by lia. done. }
  replace (0 <? Z.of_nat (length pages))%Z with true
    by (symmetry; apply Z.ltb_lt; lia).
  simpl. case_bool_decide.
  - by replace (Z.of_nat (length pages) <=? Z.of_nat i)%Z with true
      by (symmetry; apply Z.leb_le; lia).
  - by replace (Z.of_nat (length pages) <=? Z.of_nat i)%Z with false
      by (symmetry; apply Z.leb_gt; lia).
Qed.

(** X16: from an upstream that serves non-empty pages and announces
    their number as [totalPages], the fetch returns all the guidelines of
    all the pages, in order, after as many requests as there are
    pages. *)
Theorem fetch_all_guidelines_announced_pages pages fuel :
  pages ≠ [] →
  Forall (λ p, p ≠ []) pages →
  (length pages ≤ fuel)%nat →
  fetch_all_guidelines fuel (serve_pages true pages) = Some (concat pages).
Proof.
  intros Hpages Hfull Hfuel.
  rewrite <- (pages_upto_serve_pages true).
  apply fetch_all_guidelines_first_stop; [|done].
  assert (Hnth : ∀ i, (1 ≤ i ≤ length pages)%nat → nth (i - 1) pages [] ≠ []).
  { intros i Hi. rewrite Forall_forall in Hfull. apply Hfull.
    apply list_elem_of_In, nth_In. lia. }
  split; [destruct pages; [done|simpl; lia]|]. split.
  - intros i Hi. rewrite page_exit_serve_pages by (try apply Hnth; lia).
    simpl. by rewrite bool_decide_false by lia.
  - rewrite page_exit_serve_pages.
    + simpl. by rewrite bool_decide_true by lia.
    + destruct pages; [done|simpl; lia].
    + apply Hnth. destruct pages; [done|simpl; lia].
Qed.

(** X17: from an upstream that serves non-empty pages without any
    pagination information, the fetch returns all the guidelines of all
    the pages, in order; it stops on the first empty page, one request
    after the last page. *)
Theorem fetch_all_guidelines_until_empty_page pages fuel :
  Forall (λ p, p ≠ []) pages →
  (length pages < fuel)%nat →
  fetch_all_guidelines fuel (serve_pages false pages) = Some (concat pages).
Proof.
  intros Hfull Hfuel.
  rewrite <- (pages_upto_serve_pages false).
  replace (pages_upto (serve_pages false pages) (length pages))
    with (pages_upto (serve_pages false pages) (S (length pages))).
  2:{ unfold pages_upto. rewrite seq_S, flat_map_app. cbn [flat_map].
      rewrite page_items_serve_pages, nth_overflow by lia.
      by rewrite !app_nil_r. }
  apply fetch_all_guidelines_first_stop; [|lia].
  split; [lia|]. split.
  - intros i Hi. rewrite page_exit_serve_pages; [done|lia|].
    rewrite Forall_forall in Hfull. apply Hfull.
    apply list_elem_of_In, nth_In. lia.
  - unfold page_exit, serve_pages, fetch_page. simpl.
    rewrite nth_overflow by lia. done.
Qed.

(** ** The extractor and the filter: when they raise *)

Section raise_props.
Context `{Runtime}.

Lemma guarded_get_exn obj k e :
  guarded_get obj k = Raise e → e = AttributeError.
Proof.
  unfold guarded_get. destruct (truthy obj); [|done].
  destruct obj; simpl; try done; by intros [= <-].
Qed.

Lemma join_names_exn sep names e :
  join_names sep names = Raise e → e = TypeError.
Proof.
  unfold join_names, py_join.
  destruct (forallb isinstance_str (List.filter truthy names)) eqn:Hstr.
  - destruct (all_strs_ok _ Hstr) as [l ->]. done.
  - rewrite (all_strs_raises _ Hstr). simpl. by intros [= <-].
Qed.

Lemma publisher_of_exn publishers e :
  publisher_of publishers = Raise e → e = TypeError.
Proof.
  unfold publisher_of. destruct (truthy publishers); [|done].
  destruct publishers; try done. apply join_names_exn.
Qed.

Lemma professions_of_exn metadata e :
  professions_of metadata = Raise e → e = AttributeError ∨ e = TypeError.
Proof.
  unfold professions_of. destruct (truthy metadata); [|done].
  destruct metadata as [ | | | | | |m]; simpl; try (intros [= <-]; by left).
  destruct (from_option id (VList []) (dict_get m "professions")); try done.
  intros Hjoin%join_names_exn. by right.
Qed.

Lemma extract_guideline_data_ok g :
  expected_shape g = true → ∃ result_data, extract_guideline_data g = Ok result_data.
Proof.
  unfold expected_shape. rewrite !andb_true_iff.
  intros ((((Hdates & Hpubs) & Hmeta) & Hprofs) & Htype).
  rewrite extract_guideline_data_blocks.
  destruct (guarded_get_ok _ "publishedBySource" Hdates) as (date & -> & _).
  destruct (publisher_of_ok _ Hpubs) as (publisher & -> & _).
  destruct (professions_of_ok _ Hmeta Hprofs) as (professions & -> & _).
  destruct (guarded_get_ok _ "label" Htype) as (label & -> & _).
  destruct (guarded_get_ok _ "sourceType" Htype) as (stype & -> & _).
  by eexists.
Qed.

(** X18: the extractor raises exactly on the guidelines off the expected
    shape ([dates], [metadata] or [type] truthy and not an object, or a
    collected publisher or profession name that is truthy and not a
    string), and what it raises is an [AttributeError] or a
    [TypeError]. *)
Theorem extract_guideline_data_raises_iff g :
  ((∃ e, extract_guideline_data g = Raise e) ↔ expected_shape g = false)
  ∧ ∀ e, extract_guideline_data g = Raise e →
         e = AttributeError ∨ e = TypeError.
Proof.
  split.
  - split.
    + intros [e He]. destruct (expected_shape g) eqn:Hshape; [|done].
      destruct (extract_guideline_data_ok g Hshape) as [r Hr]. congruence.
    + apply extract_guideline_data_off_shape.
  - intros e. rewrite extract_guideline_data_blocks.
    destruct (guarded_get _ "publishedBySource") eqn:H1; simpl;
      [|intros [= <-]; left; by eapply guarded_get_exn].
    destruct (publisher_of _) eqn:H2; simpl;
      [|intros [= <-]; right; by eapply publisher_of_exn].
    destruct (professions_of _) eqn:H3; simpl;
      [|intros [= <-]; by eapply professions_of_exn].
    destruct (guarded_get _ "label") eqn:H4; simpl;
      [|intros [= <-]; left; by eapply guarded_get_exn].
    destruct (guarded_get _ "sourceType") eqn:H5; simpl;
      [done|intros [= <-]; left; by eapply guarded_get_exn].
Qed.

End raise_props.

Lemma filter_public_loop_result guidelines : ∀ acc,
  if forallb isinstance_dict guidelines
  then ∃ out, filter_public_loop guidelines acc = Ok (acc ++ out)
  else filter_public_loop guidelines acc = Raise AttributeError.
Proof.
  induction guidelines as [|g guidelines IH]; intros acc; simpl.
  - exists []. by rewrite app_nil_r.
  - destruct g as [ | | | | | |d]; simpl; try done.
    destruct (is_public d).
    + specialize (IH (acc ++ [d])).
      destruct (forallb isinstance_dict guidelines); [|done].
      destruct IH as [out ->]. exists (d :: out). by rewrite <- app_assoc.
    + apply IH.
Qed.

(** X19: the filter raises exactly when some element of its input is not
    an object, wherever that element stands; what it raises is the
    [AttributeError] of the [get] call, and nothing is returned for the
    guidelines before it. *)
Theorem filter_public_guidelines_raises_iff guidelines :
  (filter_public_guidelines guidelines = Raise AttributeError
   ↔ forallb isinstance_dict guidelines = false)
  ∧ ∀ e, filter_public_guidelines guidelines = Raise e → e = AttributeError.
Proof.
  unfold filter_public_guidelines.
  pose proof (filter_public_loop_result guidelines []) as Hloop.
  destruct (forallb isinstance_dict guidelines).
  - destruct Hloop as [out ->]. split; [split; done|done].
  - rewrite Hloop. split; [done|]. by intros e [= <-].
Qed.

(** *** The further archiver and fetcher properties on concrete inputs *)

(** A page whose link has no [href], without the content marker. *)
Definition env_link_without_href : capture_env := {|
  uuid8 := "0a1b2c3d";
  chrome_starts := true;
  page_loads := true;
  content_marker := false;
  pdf_link := Some None;
  print_page := None;
  print_fs := FsOk;
  requests_get := λ _, Some (true, pdf_bytes);
  download_fs := FsOk
|}.

(** The call on the page that times out. *)
Lemma save_guideline_pdf_gives_up_early_witness :
  outcome (@save_guideline_pdf example_runtime env_timeout
             "https://ebpnet.be/nl/a" (VStr "A")) = Ok ""
  ∧ Forall (session_event "https://ebpnet.be/nl/a")
      (trace (@save_guideline_pdf example_runtime env_timeout
                "https://ebpnet.be/nl/a" (VStr "A"))).
Proof.
  exact (@save_guideline_pdf_gives_up_early example_runtime env_timeout
           "https://ebpnet.be/nl/a" (VStr "A") eq_refl).
Defined.

(** The call on the page whose link has no [href]. *)
Lemma save_guideline_pdf_download_refused_witness :
  outcome (@save_guideline_pdf example_runtime env_link_without_href
             "https://ebpnet.be/nl/a" (VStr "A")) = Ok ""
  ∧ ∀ href, ¬ In (ERequestsGet href)
                (trace (@save_guideline_pdf example_runtime env_link_without_href
                          "https://ebpnet.be/nl/a" (VStr "A"))).
Proof.
  destruct (@save_guideline_pdf_download_refused example_runtime
              env_link_without_href "https://ebpnet.be/nl/a" (VStr "A")
              eq_refl eq_refl) as (Hresult & _ & _ & Hrequest).
  split; [exact Hresult | exact (Hrequest eq_refl)].
Defined.

(** An upstream that always has one more guideline and no pagination. *)
Definition upstream_endless (offset : Z) : page_response :=
  JsonBody (VDict [("guidelines", VList [VInt offset])]).

Lemma fetch_all_guidelines_unbounded_witness :
  fetch_all_guidelines 50 upstream_endless = None.
Proof.
  apply fetch_all_guidelines_unbounded. intros i Hi. reflexivity.
Defined.

(** Three pages of guidelines. *)
Definition three_pages : list (list value) :=
  [[VDict guideline_a; VDict guideline_b]; [VDict guideline_c];
   [VDict guideline_d]].

Lemma fetch_all_guidelines_announced_pages_witness :
  fetch_all_guidelines 3 (serve_pages true three_pages)
  = Some [VDict guideline_a; VDict guideline_b; VDict guideline_c;
          VDict guideline_d].
Proof.
  apply (fetch_all_guidelines_announced_pages three_pages 3).
  - discriminate.
  - repeat constructor; discriminate.
  - simpl. lia.
Defined.

Lemma fetch_all_guidelines_until_empty_page_witness :
  fetch_all_guidelines 4 (serve_pages false three_pages)
  = Some [VDict guideline_a; VDict guideline_b; VDict guideline_c;
          VDict guideline_d].
Proof.
  apply (fetch_all_guidelines_until_empty_page three_pages 4).
  - repeat constructor; discriminate.
  - simpl. lia.
Defined.

(** ** The two filters compared *)

Lemma prefix_append_l n s t :
  String.prefix n s = true → String.prefix n (s +:+ t) = true.
Proof.
  revert n. induction s as [|b s IH]; intros n; simpl.
  - destruct n; [|done]. intros _. by destruct t.
  - destruct n as [|a n]; [done|].
    destruct (ascii_dec a b); [apply IH|done].
Qed.

Section contains_props.
Context `{Runtime}.

Lemma contains_append_l n s t :
  Legacy.contains n s = true → Legacy.contains n (s +:+ t) = true.
Proof.
  induction s as [|b s IH].
  - simpl. rewrite orb_false_r. destruct n; [|done].
    intros _. by destruct t.
  - cbn [Legacy.contains String.append]. intros [Hpre|Hrest]%orb_true_iff.
    + apply orb_true_iff. left. by apply (prefix_append_l n (String b s) t).
    + apply orb_true_iff. right. by apply IH.
Qed.

Lemma contains_append_r n s t :
  Legacy.contains n t = true → Legacy.contains n (s +:+ t) = true.
Proof.
  intros Ht. induction s as [|b s IH]; [done|].
  cbn [Legacy.contains String.append]. apply orb_true_iff. by right.
Qed.

Lemma contains_join n sep x l :
  In x l → Legacy.contains n x = true →
  Legacy.contains n (join_strs sep l) = true.
Proof.
  intros Hin Hx. induction l as [|y l IH]; [done|].
  destruct Hin as [->|Hin].
  - destruct l; [done|]. by apply contains_append_l.
  - destruct l as [|z l]; [done|].
    change (join_strs sep (y :: z :: l))
      with (y +:+ sep +:+ join_strs sep (z :: l)).
    apply contains_append_r, contains_append_r. by apply IH.
Qed.

Lemma dict_get_In d k v : dict_get d k = Some v → In (k, v) d.
Proof.
  induction d as [|[k' v'] d IH]; simpl; [done|].
  destruct (String.eqb k' k) eqn:Hk.
  - apply String.eqb_eq in Hk as ->. intros [= ->]. by left.
  - intros Hget. right. by apply IH.
Qed.

(** The text of an object with the flag false holds the flag's text. *)
Lemma json_dumps_flag d :
  dict_get d "isLoginOnly" = Some (VBool false) →
  Legacy.contains Legacy.flag_spaced (Legacy.json_dumps (VDict d)) = true.
Proof.
  intros Hflag%dict_get_In. cbn [Legacy.json_dumps].
  apply contains_append_r, contains_append_l.
  eapply contains_join.
  - apply in_map_iff. eexists. split; [reflexivity|exact Hflag].
  - reflexivity.
Qed.

Lemma legacy_filter_public_loop guidelines : ∀ acc,
  Legacy.filter_public_loop guidelines acc
  = acc ++ List.filter
             (λ g, Legacy.contains Legacy.flag_spaced (Legacy.json_dumps g)
                   || Legacy.contains Legacy.flag_compact (Legacy.json_dumps g))
             guidelines.
Proof.
  induction guidelines as [|g guidelines IH]; intros acc; simpl.
  - by rewrite app_nil_r.
  - destruct (_ || _); rewrite IH; [|done]. by rewrite <- app_assoc.
Qed.

(** X20: the typed filter of [main.py] is the stricter of the two: every
    guideline it keeps is also kept by the text filter of the earlier
    script, on the same input. *)
Theorem filter_public_guidelines_within_legacy guidelines out g :
  filter_public_guidelines guidelines = Ok out →
  In g out →
  In (VDict g) (Legacy.filter_public_guidelines guidelines).
Proof.
  unfold filter_public_guidelines, Legacy.filter_public_guidelines.
  rewrite legacy_filter_public_loop, app_nil_l.
  assert (Hloop : ∀ acc out,
            filter_public_loop guidelines acc = Ok out →
            In g out → In g acc ∨ (In (VDict g) guidelines ∧ is_public g = true)).
  { induction guidelines as [|v guidelines IH]; intros acc out'; simpl.
    - intros [= <-]. by left.
    - destruct v as [ | | | | | |d]; try done.
      destruct (is_public d) eqn:Hpub; intros Hout Hin;
        destruct (IH _ _ Hout Hin) as [Hacc|[Hg Hp]]; try tauto.
      apply in_app_iff in Hacc as [Hacc|[<-|[]]]; tauto. }
  intros Hout Hin. destruct (Hloop [] out Hout Hin) as [[]|[Hg Hpub]].
  apply filter_In. split; [done|].
  apply is_public_spec in Hpub as [Hflag _].
  by rewrite (json_dumps_flag _ Hflag).
Qed.

End contains_props.

(** The typed filter keeps [A], and so does the text filter. *)
Lemma filter_public_guidelines_within_legacy_witness :
  In (VDict guideline_a)
     (@Legacy.filter_public_guidelines example_runtime
        [VDict guideline_a; VDict guideline_c]).
Proof.
  apply (@filter_public_guidelines_within_legacy example_runtime
           [VDict guideline_a; VDict guideline_c] [guideline_a] guideline_a
           eq_refl).
  left. reflexivity.
Defined.

(** ** The capture and the processing loop of the earlier script

    [fetch_all_guidelines] and [extract_guideline_data] of
    [__main__ebpnet_api.py] have the same text as those of [main.py] and
    are modelled by the same definitions. *)

Module LegacyRun.

Definition TEST_MODE : bool := true.
Definition MAX_TEST_GUIDELINES : nat := 2.

Section run.
Context `{Runtime}.

(** [html_to_pdf]: the session is created before the [try] block; the
    wait is for the content marker alone, and there is no second
    strategy. *)
Definition html_to_pdf (env : capture_env) (url : string) (name : value)
    : io string :=
  _ ← call EChrome
        (if chrome_starts env then Ok () else Raise WebDriverException);
  try_finally
    (try_except
       (_ ← call (EDriverGet url)
              (if page_loads env then Ok () else Raise WebDriverException);
        _ ← call EWait
              (if content_marker env then Ok () else Raise TimeoutException);
        let pdf_path := pdf_path_of env name in
        pdf ← call EPrintPage
               (match print_page env with
                | Some pdf => Ok pdf
                | None => Raise WebDriverException
                end);
        _ ← open_wb (print_fs env) pdf_path;
        data ← match b64decode pdf with
               | Some data => mret data
               | None => throw ValueError
               end;
        _ ← f_write (print_fs env) pdf_path data;
        mret pdf_path)
       (λ e, mret ""))
    (call EQuit (Ok ())).

(** The loop of [process_guidelines] from position [i] on; [envs i] is
    what the capture of the [i]-th guideline meets. Nothing is caught. *)
Fixpoint process_loop (envs : nat → capture_env) (i : nat)
    (guidelines : list value) (detailed_results : list (list value))
    : res (list (list value)) :=
  match guidelines with
  | [] => Ok detailed_results
  | VDict guideline :: rest =>
      let title := get guideline "title" (VStr "Unknown Title") in
      result ← extract_guideline_data guideline;
      let frontend_url := get guideline "frontendUrl" (VStr "") in
      let full_url :=
        if truthy frontend_url then SITE_URL +:+ py_str frontend_url else "" in
      pdf_path ← (if negb (String.eqb full_url "")
                  then outcome (html_to_pdf (envs i) full_url title)
                  else Ok "");
      process_loop envs (S i) rest (detailed_results ++ [result ++ [VStr pdf_path]])
  | _ :: _ => Raise AttributeError
  end.

Definition process_guidelines (envs : nat → capture_env)
    (public_guidelines : list value) : res (list (list value)) :=
  let guidelines_to_process :=
    if TEST_MODE then take MAX_TEST_GUIDELINES public_guidelines
    else public_guidelines in
  process_loop envs 1 guidelines_to_process [].

(** Whether the capture of a guideline can raise: it has a truthy
    [frontendUrl] and the session fails to start. *)
Definition capture_raises (env : capture_env) (guideline : dict) : bool :=
  truthy (frontend_url_of guideline) && negb (chrome_starts env).

(** Whether one item of the loop goes through. *)
Definition item_passes (env : capture_env) (guideline : value) : bool :=
  match guideline with
  | VDict d => expected_shape d && negb (capture_raises env d)
  | _ => false
  end.

(** The [try] block of [html_to_pdf] with its handler. *)
Definition capture_body (env : capture_env) (url : string) (name : value)
    : io string :=
  try_except
    (_ ← call (EDriverGet url)
           (if page_loads env then Ok () else Raise WebDriverException);
     _ ← call EWait
           (if content_marker env then Ok () else Raise TimeoutException);
     let pdf_path := pdf_path_of env name in
     pdf ← call EPrintPage
            (match print_page env with
             | Some pdf => Ok pdf
             | None => Raise WebDriverException
             end);
     _ ← open_wb (print_fs env) pdf_path;
     data ← match b64decode pdf with
            | Some data => mret data
            | None => throw ValueError
            end;
     _ ← f_write (print_fs env) pdf_path data;
     mret pdf_path)
    (λ e, mret "").

Lemma html_to_pdf_body env url name :
  html_to_pdf env url name
  = if chrome_starts env
    then IO (EChrome :: trace (capture_body env url name) ++ [EQuit])
            (outcome (capture_body env url name))
    else IO [EChrome] (Raise WebDriverException).
Proof.
  unfold html_to_pdf. fold (capture_body env url name).
  generalize (capture_body env url name). intros body.
  unfold try_finally, call, mbind, io_bind.
  by destruct (chrome_starts env).
Qed.

(** The events of the body: the page, the wait, the print and the file. *)
Definition body_event (ev : event) : Prop :=
  match ev with
  | EDriverGet _ | EWait | EPrintPage | EOpen _ | EWrite _ _ => True
  | _ => False
  end.

Lemma capture_body_spec env url name :
  outcome (capture_body env url name)
  = Ok (if page_loads env && content_marker env
           && bool_decide (is_Some (print_data env))
        then pdf_path_of env name else "")
  ∧ Forall body_event (trace (capture_body env url name)).
Proof.
  unfold capture_body, print_data, open_wb, f_write, try_except,
    call, throw, mbind, io_bind, mret, io_ret.
  destruct (page_loads env), (content_marker env),
    (print_page env) as [pdf|], (print_fs env); simpl;
    try destruct (b64decode pdf); simpl;
    (split; [done|]); repeat apply Forall_cons_2; try apply Forall_nil_2;
    done.
Qed.

Lemma html_to_pdf_outcome env url name :
  outcome (html_to_pdf env url name)
  = if chrome_starts env
    then Ok (if page_loads env && content_marker env
                && bool_decide (is_Some (print_data env))
             then pdf_path_of env name else "")
    else Raise WebDriverException.
Proof.
  rewrite html_to_pdf_body.
  destruct (chrome_starts env); [|done].
  apply capture_body_spec.
Qed.

(** X21: [html_to_pdf] lets the exception of a session that fails to
    start reach its caller; once the session has started it never raises,
    returns its output path exactly when the page loads, the content
    marker shows up and the print succeeds, and the empty string in every
    other case, in particular on a page that only has the download link;
    it never looks for the link and never sends a request; the session is
    quit last. *)
Theorem html_to_pdf_result env url name :
  let r := html_to_pdf env url name in
  outcome r
  = (if chrome_starts env
     then Ok (if page_loads env && content_marker env
                 && bool_decide (is_Some (print_data env))
              then pdf_path_of env name else "")
     else Raise WebDriverException)
  ∧ (chrome_starts env = true →
     ∃ t, trace r = EChrome :: t ++ [EQuit] ∧ ¬ In EQuit t)
  ∧ ¬ In EFindLink (trace r)
  ∧ ∀ href, ¬ In (ERequestsGet href) (trace r).
Proof.
  intros r. subst r. split; [apply html_to_pdf_outcome|].
  rewrite html_to_pdf_body.
  destruct (capture_body_spec env url name) as [_ Hbody].
  rewrite Forall_forall in Hbody.
  assert (Hnot : ∀ ev, ¬ body_event ev →
                       ¬ In ev (trace (capture_body env url name))).
  { intros ev Hev Hin. by apply Hev, Hbody, list_elem_of_In. }
  assert (Hquit : ¬ In EQuit (trace (capture_body env url name)))
    by (apply Hnot; simpl; tauto).
  assert (Hlink : ¬ In EFindLink (trace (capture_body env url name)))
    by (apply Hnot; simpl; tauto).
  assert (Hget : ∀ href, ¬ In (ERequestsGet href)
                             (trace (capture_body env url name)))
    by (intros href; apply Hnot; simpl; tauto).
  destruct (chrome_starts env); simpl.
  - split; [intros _; eexists; split; [reflexivity|done]|].
    split; [|intros href; specialize (Hget href)]; rewrite in_app_iff; simpl;
      intuition discriminate.
  - split; [done|]. split; [|intros href]; intuition discriminate.
Qed.

End run.
End LegacyRun.

Section legacy_run_props.
Context `{Runtime}.

(** Whether the loop goes through all of [guidelines] from position
    [i]. *)
Fixpoint loop_passes (envs : nat → capture_env) (i : nat)
    (guidelines : list value) : bool :=
  match guidelines with
  | [] => true
  | g :: rest => LegacyRun.item_passes (envs i) g && loop_passes envs (S i) rest
  end.

Lemma legacy_process_loop_spec envs guidelines : ∀ i acc,
  if loop_passes envs i guidelines
  then ∃ rows, LegacyRun.process_loop envs i guidelines acc = Ok (acc ++ rows)
               ∧ length rows = length guidelines
               ∧ Forall (λ row, length row = 7%nat) rows
  else ∃ e, LegacyRun.process_loop envs i guidelines acc = Raise e.
Proof.
  induction guidelines as [|g guidelines IH]; intros i acc; simpl.
  - exists []. by rewrite app_nil_r.
  - destruct g as [ | | | | | |d]; simpl; try by eexists.
    destruct (expected_shape d) eqn:Hshape; simpl.
    2:{ destruct (extract_guideline_data_off_shape d Hshape) as [e ->].
        by eexists. }
    destruct (extract_guideline_data_ok d Hshape) as [result Hresult].
    rewrite Hresult. simpl.
    fold (frontend_url_of d) (full_url_of d).
    rewrite full_url_empty, negb_involutive.
    unfold LegacyRun.capture_raises.
    rewrite LegacyRun.html_to_pdf_outcome.
    pose proof (extract_guideline_data_length _ _ Hresult) as Hlen.
    destruct (truthy (frontend_url_of d)); simpl.
    + destruct (chrome_starts (envs i)); simpl; [|by eexists].
      match goal with
      | |- context [LegacyRun.process_loop envs (S i) guidelines ?acc'] =>
          specialize (IH (S i) acc')
      end.
      destruct (loop_passes envs (S i) guidelines); [|done].
      destruct IH as (rows & -> & Hrows & Hseven).
      eexists (_ :: rows). rewrite <- app_assoc. split; [reflexivity|].
      split; [simpl; by rewrite Hrows|].
      constructor; [|done]. rewrite length_app, Hlen. done.
    + match goal with
      | |- context [LegacyRun.process_loop envs (S i) guidelines ?acc'] =>
          specialize (IH (S i) acc')
      end.
      destruct (loop_passes envs (S i) guidelines); [|done].
      destruct IH as (rows & -> & Hrows & Hseven).
      eexists (_ :: rows). rewrite <- app_assoc. split; [reflexivity|].
      split; [simpl; by rewrite Hrows|].
      constructor; [|done]. rewrite length_app, Hlen. done.
Qed.

(** X22: the processing loop of the earlier script looks at the first
    two guidelines only. When both go through (each an object of the
    expected shape whose capture does not raise) it returns one row of
    seven fields for each of them; when one does not, it raises and no
    row at all is returned, also for the guideline that went through. *)
Theorem legacy_process_guidelines_result envs public_guidelines :
  LegacyRun.process_guidelines envs public_guidelines
  = LegacyRun.process_guidelines envs (take 2 public_guidelines)
  ∧ if loop_passes envs 1 (take 2 public_guidelines)
    then ∃ results,
           LegacyRun.process_guidelines envs public_guidelines = Ok results
           ∧ length results = Nat.min 2 (length public_guidelines)
           ∧ Forall (λ row, length row = 7%nat) results
    else ∃ e, LegacyRun.process_guidelines envs public_guidelines = Raise e.
Proof.
  unfold LegacyRun.process_guidelines, LegacyRun.TEST_MODE,
    LegacyRun.MAX_TEST_GUIDELINES. cbv iota zeta.
  split; [by rewrite take_take|].
  pose proof (legacy_process_loop_spec envs (take 2 public_guidelines) 1 [])
    as Hloop.
  destruct (loop_passes envs 1 (take 2 public_guidelines)); [|done].
  destruct Hloop as (rows & -> & Hrows & Hseven).
  exists rows. split; [done|]. split; [|done].
  by rewrite Hrows, length_take.
Qed.

End legacy_run_props.

(** ** A whole run of [main] *)

Lemma load_file_append f row :
  load_processed_guidelines f ⊆ load_processed_guidelines (file_append f row).
Proof.
  destruct f as [|ls]; [set_solver|].
  unfold load_processed_guidelines. simpl.
  destruct ls as [|[header|] reader]; simpl; [set_solver| |set_solver].
  destruct (bool_decide (header = []) || negb (bool_decide (header = CSV_HEADER)));
    [set_solver|].
  rewrite read_rows_app.
  destruct (read_rows reader ∅) as [seen|e]; simpl; [|set_solver].
  case_bool_decide; set_solver.
Qed.

Lemma load_foldl_file_append rows : ∀ f,
  load_processed_guidelines f
  ⊆ load_processed_guidelines (foldl file_append f rows).
Proof.
  induction rows as [|row rows IH]; intros f; simpl; [done|].
  etrans; [apply (load_file_append f row)|apply IH].
Qed.

Section main_props.
Context `{Runtime}.

(** X23: a run of [main] that returns never removes or rewrites a
    record and never loses a key: the store afterwards is the store as
    [initialize_csv] left it followed by at most one new record per
    dispatched guideline, and every key a load found before the run is
    found after it. *)
Theorem main_appends_only fuel env f l f' :
  main fuel env f = Some (Ok (l, f')) →
  ∃ f0 rows,
    initialize_csv (create_ok env) f = Ok f0
    ∧ f' = foldl file_append f0 rows
    ∧ (length rows ≤ length l)%nat
    ∧ load_processed_guidelines f ⊆ load_processed_guidelines f'.
Proof.
  unfold main.
  destruct (initialize_csv (create_ok env) f) as [f0|e] eqn:Hinit; [|done].
  assert (Hkeys : load_processed_guidelines f0 = load_processed_guidelines f).
  { unfold initialize_csv in Hinit. destruct f; simpl in Hinit.
    - destruct (create_ok env); [|done]. by injection Hinit as <-.
    - by injection Hinit as <-. }
  assert (Hnone : ∃ rows : list (list string),
            f0 = foldl file_append f0 rows ∧ (length rows ≤ 0)%nat
            ∧ load_processed_guidelines f ⊆ load_processed_guidelines f0).
  { exists []. by rewrite Hkeys. }
  destruct (fetch_all_guidelines fuel (upstream env)) as [all|]; [|done].
  destruct all as [|v all].
  { intros [= <- <-]. exists f0. destruct Hnone as (rows & ? & ? & ?). eauto. }
  destruct (filter_public_guidelines (v :: all)) as [public|e]; [|done].
  destruct public as [|g public].
  { intros [= <- <-]. exists f0. destruct Hnone as (rows & ? & ? & ?). eauto. }
  intros [= Hrun].
  destruct (process_guidelines_run _ _ _ _ _ _ _ Hrun)
    as (_ & rows & -> & Hrows).
  exists f0, rows. split; [done|]. split; [done|]. split.
  - rewrite Hrows. etrans; [apply omap_length_le|]. by rewrite length_imap.
  - rewrite <- Hkeys. apply load_foldl_file_append.
Qed.


(** X25: when the first page is empty, or its request, status check or
    parse fails, a run on an existing store returns after that one
    request, dispatches nothing and leaves the store as it is. *)
Theorem main_empty_first_page fuel env f :
  exists_file f = true →
  (1 ≤ fuel)%nat →
  page_items (upstream env 1) = [] →
  page_exit 1 (upstream env 1) ≠ Ok Continue →
  main fuel env f = Some (Ok ([], f)).
Proof.
  intros Hexists Hfuel Hitems Hstop.
  unfold main, initialize_csv. rewrite Hexists. simpl.
  rewrite (fetch_all_guidelines_first_stop (upstream env) 1 fuel); [| |done].
  - unfold pages_upto. cbn [seq flat_map]. change (Z.of_nat 1) with 1.
    by rewrite Hitems.
  - split; [done|]. split; [intros i Hi; lia|done].
Qed.

End main_props.

(** *** Whole runs on concrete inputs *)


Definition run_offline : run_env := {|
  create_ok := true;
  upstream := λ _, RequestFails;
  schedule := [];
  units := λ _, unit_printed
|}.

(** The first run on a missing store. *)
Lemma main_appends_only_witness :
  ∃ f0 rows,
    initialize_csv (create_ok example_run) Missing = Ok f0
    ∧ store_first_run = foldl file_append f0 rows
    ∧ (length rows ≤ 2)%nat.
Proof.
  assert (Hrun : @main example_runtime 1 example_run Missing
                 = Some (Ok ([guideline_a; guideline_b], store_first_run)))
    by (vm_compute; reflexivity).
  destruct (@main_appends_only example_runtime _ _ _ _ _ Hrun)
    as (f0 & rows & Hinit & Hstore & Hlen & _).
  exists f0, rows. split; [exact Hinit|]. split; [exact Hstore | exact Hlen].
Defined.


(** The run whose first request fails leaves the store of [A] and [B]. *)
Lemma main_empty_first_page_witness :
  @main example_runtime 1 run_offline store_after_first_run
  = Some (Ok ([], store_after_first_run)).
Proof.
  apply (@main_empty_first_page example_runtime 1 run_offline
           store_after_first_run eq_refl).
  - lia.
  - reflexivity.
  - discriminate.
Defined.
